(** * Doki sprite tools: the [.spr] encoder and the upload validator

    A shallow embedding of [tools/sprite_converter.py] and of
    [validate_spr_file] from [tools/upload_animation.py], with the
    properties of the container format proved over it.

    Conventions of the embedding:
    - Python [int] is [Z]; [bytes] is [list byte]; [str] is [string]
      (read as UTF-8, so that sorting by code point is bytewise order).
    - A raised exception is [Raise e]; code that can raise returns
      [result A].  Code that touches the output file runs in [IO], a
      state-and-exception monad over [Disk]; the disk is threaded through a
      raise, so what an aborted run leaves behind can be observed.
    - Pillow is not part of the repository: its operations are the fields
      of the class [ImageLib], and the theorems hold for every instance.
    - [print] calls have no influence on results and are left out. *)

From Stdlib Require Import ZArith Lia Strings.Byte Strings.Ascii.
From stdpp Require Import gmap strings list fin_maps sorting.

(** ** Python runtime pieces *)

Module Py.

(** Messages of the two [ValueError]s the converter raises itself. *)
Inductive ValueMsg :=
| NoImageFiles (folder : string)
| DifferentSize (idx : nat) (sz : Z * Z).

Inductive FileOp := OpOpen | OpRead | OpWrite.

(** [ValueError] is one of the converter's own two; [LibraryError] is an
    exception raised inside the image library (Pillow raises its own
    [ValueError] when asked for a picture of a size it refuses). *)
Inductive Exception :=
| ValueError (msg : ValueMsg)
| IndexError
| StructError
| OSError (op : FileOp)
| LibraryError.

Inductive result (A : Type) :=
| Ok (a : A)
| Raise (e : Exception).
Arguments Ok {A} a.
Arguments Raise {A} e.

#[global] Instance result_ret : MRet result := λ A a, Ok a.
#[global] Instance result_bind : MBind result := λ A B f r,
  match r with
  | Ok a => f a
  | Raise e => Raise e
  end.

(** [[f(x) for x in l]] where [f] may raise: stops at the first raise. *)
Fixpoint mapM {A B} (f : A → result B) (l : list A) : result (list B) :=
  match l with
  | [] => Ok []
  | x :: l' => y ← f x; ys ← mapM f l'; Ok (y :: ys)
  end.

(** [l[i]] for a non-negative index. *)
Definition getitem {A} (l : list A) (i : nat) : result A :=
  match l !! i with
  | Some x => Ok x
  | None => Raise IndexError
  end.

(** [range(n)] *)
Definition range (n : Z) : list Z := Z.of_nat <$> seq 0 (Z.to_nat n).

(** [str.lower] on the ASCII letters; every suffix the tools test for is
    ASCII and no other character lowers to one of their letters. *)
Definition lower_ascii (c : ascii) : ascii :=
  let n := nat_of_ascii c in
  if (65 <=? n)%nat && (n <=? 90)%nat then ascii_of_nat (n + 32) else c.

Fixpoint lower (s : string) : string :=
  match s with
  | EmptyString => EmptyString
  | String c s' => String (lower_ascii c) (lower s')
  end.

(** [s.endswith(suf)] *)
Definition endswith (s suf : string) : bool :=
  let n := String.length s in
  let m := String.length suf in
  (m <=? n)%nat && String.eqb (String.substring (n - m) m s) suf.

(** [s.endswith((a, b, ...))] *)
Definition endswith_any (s : string) (sufs : list string) : bool :=
  existsb (endswith s) sufs.

(** [sorted(names)]: ascending, by insertion. *)
Fixpoint insert_sorted (x : string) (l : list string) : list string :=
  match l with
  | [] => [x]
  | y :: l' => if String.leb x y then x :: y :: l' else y :: insert_sorted x l'
  end.

Definition sorted (l : list string) : list string :=
  foldr insert_sorted [] l.

(** [os.path.join(a, b)] on POSIX. *)
Definition path_join (a b : string) : string :=
  if String.prefix "/" b then b
  else if String.eqb a "" || endswith a "/" then a +:+ b
  else a +:+ "/" +:+ b.

(** A read that fails raises [OSError]. *)
Definition reading {A} (o : option A) : result A :=
  match o with
  | Some a => Ok a
  | None => Raise (OSError OpRead)
  end.

(** A library call that fails raises inside the library. *)
Definition calling {A} (o : option A) : result A :=
  match o with
  | Some a => Ok a
  | None => Raise LibraryError
  end.

(** Truth value of an optional integer ([None] and [0] are false). *)
Definition truthy (o : option Z) : bool :=
  match o with
  | Some v => negb (v =? 0)%Z
  | None => false
  end.

End Py.
Import Py.

(** ** [struct.pack] for the formats the encoder uses *)

Module Struct.
Local Open Scope Z_scope.

Definition byte_of_Z (v : Z) : byte :=
  match Byte.of_N (Z.to_N v) with
  | Some b => b
  | None => x00
  end.

Definition Z_of_byte (b : byte) : Z := Z.of_N (Byte.to_N b).

(** The [n] low bytes of [v], least significant first. *)
Definition le_bytes (n : nat) (v : Z) : list byte :=
  (λ i : nat, byte_of_Z (Z.land (Z.shiftr v (8 * Z.of_nat i)) 255)) <$> seq 0 n.

(** An unsigned field of [n] bytes: [B] (1), [H] (2), [I] (4).  A value
    out of the field's range raises [struct.error]. *)
Definition pack_uint (n : nat) (v : Z) : result (list byte) :=
  if (0 <=? v) && (v <? 2 ^ (8 * Z.of_nat n)) then Ok (le_bytes n v)
  else Raise StructError.

Definition pack_B := pack_uint 1.
Definition pack_H := pack_uint 2.
Definition pack_I := pack_uint 4.

(** [struct.pack('BBBB', r, g, b, a)] *)
Definition pack_BBBB (e : Z * Z * Z * Z) : result (list byte) :=
  let '(r, g, b, a) := e in
  br ← pack_B r; bg ← pack_B g; bb ← pack_B b; ba ← pack_B a;
  Ok (br ++ bg ++ bb ++ ba).

End Struct.
Import Struct.

(** ** The output medium *)

(** [files] maps a path to the content of the file there.  [free] is the
    number of bytes the medium still accepts: of a write that needs more,
    the bytes that fit reach the file and the write raises [OSError].
    Emptying a file gives its bytes back.  [readonly] holds the paths that
    cannot be opened for writing. *)
Record Disk := mkDisk {
  files : gmap string (list byte);
  free : nat;
  readonly : gset string
}.

Definition IO (A : Type) : Type := Disk → Disk * result A.

#[global] Instance IO_ret : MRet IO := λ A a d, (d, Ok a).
#[global] Instance IO_bind : MBind IO := λ A B f m d,
  match m d with
  | (d', Ok a) => f a d'
  | (d', Raise e) => (d', Raise e)
  end.

(** A computation that does not touch the disk. *)
Definition lift {A} (r : result A) : IO A := λ d, (d, r).

(** [open(path, 'wb')]: creates the file, or truncates the one there. *)
Definition open_wb (path : string) : IO string := λ d,
  if decide (path ∈ readonly d) then (d, Raise (OSError OpOpen))
  else (mkDisk (<[path := []]> (files d))
               (free d + length (default [] (files d !! path)))
               (readonly d), Ok path).

(** [f.write(bs)] on the file opened at [f].  The file object buffers, so
    the error of a medium that is full surfaces at a later flush; what the
    run leaves is the same: the bytes that fitted, and [OSError]. *)
Definition write (f : string) (bs : list byte) : IO unit := λ d,
  if (length bs <=? free d)%nat then
    (mkDisk (<[f := default [] (files d !! f) ++ bs]> (files d))
            (free d - length bs) (readonly d), Ok tt)
  else
    (mkDisk (<[f := default [] (files d !! f) ++ take (free d) bs]> (files d))
            0 (readonly d), Raise (OSError OpWrite)).

(** [for x in l: body(x)] *)
Fixpoint for_each {A} (body : A → IO unit) (l : list A) : IO unit :=
  match l with
  | [] => mret tt
  | x :: l' => body x;; for_each body l'
  end.

(** ** The image library (Pillow), as an interface *)

(** The operations of [PIL.Image] the tools call.  An image is a value:
    [paste], which updates the canvas in place, returns the new canvas. *)
Class ImageLib (Image : Type) := {
  (** [Image.new('RGB', size)] *)
  Image_new_RGB : Z * Z → Image;
  (** [img.size] *)
  Image_size : Image → Z * Z;
  (** [img.mode == 'RGB'] *)
  Image_is_RGB : Image → bool;
  (** [img.convert('RGB')] *)
  Image_convert_RGB : Image → Image;
  (** [canvas.paste(img, box)] *)
  Image_paste : Image → Image → Z * Z → Image;
  (** [img.quantize(colors=c, method=m)] *)
  Image_quantize : Image → Z → Z → Image;
  (** [img.quantize(palette=q)] *)
  Image_quantize_to : Image → Image → Image;
  (** [img.getpalette()]: the colour table, three values per entry *)
  Image_getpalette : Image → list byte;
  (** [img.tobytes()] *)
  Image_tobytes : Image → list byte;
  (** [img.resize(size, Image.Resampling.LANCZOS)]; [None] when the
      library raises, as it does for a size it refuses *)
  Image_resize : Image → Z * Z → option Image
}.

Inductive Pattern := circle | bounce | spinner | progress | checkmark | pulse.

(** An opened animated GIF: [gif.size], [gif.info.get('duration')] and the
    frames that [gif.seek(0)], [gif.seek(1)], ... reach before [EOFError]. *)
Record Gif (Image : Type) := mkGif {
  gif_size : Z * Z;
  gif_duration : option Z;
  gif_frames : list Image
}.
Arguments mkGif {Image}.
Arguments gif_size {Image}.
Arguments gif_duration {Image}.
Arguments gif_frames {Image}.

(** What a run reads: directory listings ([os.listdir]), decoded image
    files ([Image.open]), where [None] is a path that cannot be read, and the
    frames the test-pattern drawing code renders (frame [i] of [n]), where
    [None] is a drawing or a downscaling the library refuses. *)
Record World (Image : Type) := mkWorld {
  listdir : string → option (list string);
  Image_open : string → option Image;
  Gif_open : string → option (Gif Image);
  render : Pattern → Z → Z → Z → Z → option Image
}.
Arguments mkWorld {Image}.
Arguments listdir {Image}.
Arguments Image_open {Image}.
Arguments Gif_open {Image}.
Arguments render {Image}.

(** ** [sprite_converter.py] *)

Definition SPRITE_MAGIC : Z := 0x444F4B49.

Definition COLOR_FORMAT_INDEXED_8BIT : Z := 0.
Definition COLOR_FORMAT_RGB565 : Z := 1.
Definition COLOR_FORMAT_RGB888 : Z := 2.

Definition COMPRESSION_NONE : Z := 0.
Definition COMPRESSION_RLE : Z := 1.
Definition COMPRESSION_LZ4 : Z := 2.

Record SpriteConverter (Image : Type) := mkConverter {
  frames : list Image;
  width : Z;
  height : Z;
  fps : Z;
  color_format : Z;
  compression : Z;
  palette : list (Z * Z * Z * Z)
}.
Arguments mkConverter {Image}.
Arguments frames {Image}.
Arguments width {Image}.
Arguments height {Image}.
Arguments fps {Image}.
Arguments color_format {Image}.
Arguments compression {Image}.
Arguments palette {Image}.

Section Converter.
Context {Image : Type} `{!ImageLib Image}.

Abbreviation Converter := (SpriteConverter Image).

(** [SpriteConverter.__init__] *)
Definition init : Converter :=
  mkConverter [] 0 0 30 COLOR_FORMAT_INDEXED_8BIT COMPRESSION_NONE [].

Definition set_frames (s : Converter) (fs : list Image) : Converter :=
  mkConverter fs (width s) (height s) (fps s) (color_format s) (compression s)
              (palette s).
Definition set_size (s : Converter) (sz : Z * Z) : Converter :=
  mkConverter (frames s) sz.1 sz.2 (fps s) (color_format s) (compression s)
              (palette s).
Definition set_fps (s : Converter) (v : Z) : Converter :=
  mkConverter (frames s) (width s) (height s) v (color_format s) (compression s)
              (palette s).
Definition set_palette (s : Converter) (p : list (Z * Z * Z * Z)) : Converter :=
  mkConverter (frames s) (width s) (height s) (fps s) (color_format s)
              (compression s) p.

(** [img.mode != 'RGB'] then [img.convert('RGB')] *)
Definition to_RGB (img : Image) : Image :=
  if Image_is_RGB img then img else Image_convert_RGB img.

(** *** [load_from_folder] *)

Definition image_suffixes : list string := [".png"; ".jpg"; ".jpeg"; ".bmp"].

Definition image_files (names : list string) : list string :=
  sorted (filter (λ f, endswith_any (lower f) image_suffixes = true) names).

(** The loop over [enumerate(image_files)], from index [idx] on. *)
Fixpoint load_frames (W : World Image) (folder_path : string) (idx : nat)
    (names : list string) (s : Converter) : result Converter :=
  match names with
  | [] => Ok s
  | filename :: rest =>
      let filepath := path_join folder_path filename in
      img ← reading (Image_open W filepath);
      let img := to_RGB img in
      s ← (if (idx =? 0)%nat then Ok (set_size s (Image_size img))
           else if decide (Image_size img = (width s, height s)) then Ok s
           else Raise (ValueError (DifferentSize idx (Image_size img))));
      load_frames W folder_path (S idx) rest (set_frames s (frames s ++ [img]))
  end.

Definition load_from_folder (W : World Image) (s : Converter)
    (folder_path : string) : result Converter :=
  names ← reading (listdir W folder_path);
  let image_files := image_files names in
  match image_files with
  | [] => Raise (ValueError (NoImageFiles folder_path))
  | _ => load_frames W folder_path 0 image_files s
  end.

(** *** [load_from_gif] *)

(** [int(1000 / duration)]: true division, then truncation toward zero.
    The quotient of two integers of GIF magnitude truncates to
    [Z.quot 1000 duration]; a zero duration raises [ZeroDivisionError],
    which is [None] here. *)
Definition gif_fps (duration : Z) : option Z :=
  if (duration =? 0)%Z then None else Some (Z.quot 1000 duration).

(** The [try: ... except: pass] block around the frame rate. *)
Definition fps_from_gif (s : Converter) (gif : Gif Image) : Converter :=
  let duration := default 100%Z (gif_duration gif) in
  match gif_fps duration with
  | Some gif_fps => if (fps s =? 30)%Z then set_fps s gif_fps else s
  | None => s
  end.

Definition load_from_gif (W : World Image) (s : Converter) (gif_path : string)
    (target_width target_height : option Z) : result Converter :=
  gif ← reading (Gif_open W gif_path);
  let resizing := truthy target_width && truthy target_height in
  let target := (default 0%Z target_width, default 0%Z target_height) in
  let s := if resizing then set_size s target else set_size s (gif_size gif) in
  let s := fps_from_gif s gif in
  let extract (frame : Image) : result Image :=
    let frame := to_RGB frame in
    if resizing then calling (Image_resize frame target) else Ok frame in
  extracted ← mapM extract (gif_frames gif);
  Ok (set_frames s (frames s ++ extracted)).

(** *** [generate_palette] *)

(** The loop pasting frame [idx] at [(idx * width, 0)]. *)
Fixpoint paste_frames (w : Z) (combined : Image) (idx : nat)
    (fs : list Image) : Image :=
  match fs with
  | [] => combined
  | frame :: rest =>
      paste_frames w (Image_paste combined frame (Z.of_nat idx * w, 0)%Z)
                   (S idx) rest
  end.

Definition combined (s : Converter) : Image :=
  paste_frames (width s)
    (Image_new_RGB (width s * Z.of_nat (length (frames s)), height s)%Z)
    0 (frames s).

Definition quantized (s : Converter) : Image :=
  Image_quantize (combined s) 256 2.

(** One round of [for i in range(256)]. *)
Definition palette_entry (palette_data : list byte) (i : nat)
    : result (Z * Z * Z * Z) :=
  r ← getitem palette_data (i * 3);
  g ← getitem palette_data (i * 3 + 1);
  b ← getitem palette_data (i * 3 + 2);
  let a := 255%Z in
  Ok (Z_of_byte r, Z_of_byte g, Z_of_byte b, a).

Definition generate_palette (s : Converter) : result Converter :=
  let quantized := quantized s in
  let palette_data := Image_getpalette quantized in
  palette ← mapM (palette_entry palette_data) (seq 0 256);
  let indexed_frames := (λ frame, Image_quantize_to frame quantized) <$> frames s in
  Ok (set_frames (set_palette s palette) indexed_frames).

(** *** [write_sprite] *)

(** [struct.pack('<I H H H H B B B 49s', ...)] *)
Definition pack_header (s : Converter) : result (list byte) :=
  magic ← pack_I SPRITE_MAGIC;
  version ← pack_H 1;
  frameCount ← pack_H (Z.of_nat (length (frames s)));
  frameWidth ← pack_H (width s);
  frameHeight ← pack_H (height s);
  fps ← pack_B (fps s);
  colorFormat ← pack_B (color_format s);
  compression ← pack_B (compression s);
  Ok (magic ++ version ++ frameCount ++ frameWidth ++ frameHeight ++ fps
      ++ colorFormat ++ compression ++ replicate 49 x00).

Definition _write_header (s : Converter) (f : string) : IO unit :=
  header ← lift (pack_header s);
  write f header.

Definition _write_palette (s : Converter) (f : string) : IO unit :=
  for_each (λ e, bs ← lift (pack_BBBB e); write f bs) (palette s).

Definition _write_frames (s : Converter) (f : string) : IO unit :=
  for_each (λ frame, write f (Image_tobytes frame)) (frames s).

(** The [with] block closes the file however it is left; nothing removes
    the file. *)
Definition write_sprite (s : Converter) (output_path : string) : IO unit :=
  f ← open_wb output_path;
  _write_header s f;;
  _write_palette s f;;
  _write_frames s f.

(** *** [generate_test_pattern] and [main] *)

(** Every pattern branch is [for i in range(num_frames)] appending one
    rendered frame; the loop stops where the library raises. *)
Definition generate_test_pattern (W : World Image) (w h num_frames : Z)
    (pattern_type : Pattern) : result (list Image) :=
  mapM (λ i, calling (render W pattern_type w h num_frames i)) (range num_frames).

End Converter.

(** The command line, and [parser.parse_args()] with its defaults. *)
Record Argv := mkArgv {
  argv_input : string;
  argv_output : string;
  opt_fps : option Z;
  opt_pattern : option Pattern;
  opt_width : option Z;
  opt_height : option Z;
  opt_frames : option Z
}.

Record Args := mkArgs {
  args_input : string;
  args_output : string;
  args_fps : Z;
  args_pattern : Pattern;
  args_width : Z;
  args_height : Z;
  args_frames : Z
}.

Definition parse_args (a : Argv) : Args :=
  mkArgs (argv_input a) (argv_output a)
         (default 30%Z (opt_fps a))
         (default spinner (opt_pattern a))
         (default 64%Z (opt_width a))
         (default 64%Z (opt_height a))
         (default 20%Z (opt_frames a)).

Section Main.
Context {Image : Type} `{!ImageLib Image}.

(** The part of [main] that fills the converter. *)
Definition load (W : World Image) (args : Args)
    : result (SpriteConverter Image) :=
  let converter := set_fps init (args_fps args) in
  if String.eqb (lower (args_input args)) "test" then
    fs ← generate_test_pattern W (args_width args) (args_height args)
           (args_frames args) (args_pattern args);
    Ok (set_size (set_frames converter fs) (args_width args, args_height args))
  else if endswith (lower (args_input args)) ".gif" then
    let target_w :=
      if (args_width args =? 64)%Z then None else Some (args_width args) in
    let target_h :=
      if (args_height args =? 64)%Z then None else Some (args_height args) in
    load_from_gif W converter (args_input args) target_w target_h
  else
    load_from_folder W converter (args_input args).

Definition main (W : World Image) (argv : Argv) : IO unit :=
  let args := parse_args argv in
  converter ← lift (load W args);
  converter ← lift (generate_palette converter);
  write_sprite converter (args_output args).

End Main.

(** ** [upload_animation.py]: [validate_spr_file] *)

#[global] Instance byte_eq_decision : EqDecision byte := Byte.byte_eq_dec.

(** [b'IKOD'] *)
Definition expected_magic : list byte := [x49; x4b; x4f; x44].

(** Reads the file at [filepath] on the disk; [True] is [true]. *)
Definition validate_spr_file (d : Disk) (filepath : string) : bool :=
  match files d !! filepath with
  | None => false
  | Some content =>
      let magic_bytes := take 4 content in
      if (length magic_bytes <? 4)%nat then false
      else if negb (bool_decide (magic_bytes = expected_magic)) then false
      else
        let file_size := Z.of_nat (length content) in
        if (1024 * 1024 <? file_size)%Z then false
        else true
  end.

(** ** [sprite_converter.py]: [_calculate_frame_offsets] *)

(** The loop [for frame in self.frames], appending [current_offset] and
    advancing it by [frame_size]. *)
Fixpoint frame_offsets_loop {Image} (frame_size current_offset : Z)
    (fs : list Image) : list Z :=
  match fs with
  | [] => []
  | _ :: rest =>
      current_offset :: frame_offsets_loop frame_size (current_offset + frame_size) rest
  end.

Definition _calculate_frame_offsets {Image} (s : SpriteConverter Image) : list Z :=
  let header_size := 64%Z in
  let palette_size := (256 * 4)%Z in
  let offset_table_size := (Z.of_nat (length (frames s)) * 4)%Z in
  let base_offset := (header_size + palette_size + offset_table_size)%Z in
  frame_offsets_loop (width s * height s)%Z base_offset (frames s).

(** The ranges [struct.pack] accepts for the header fields that vary. *)
Definition header_in_range {Image} (s : SpriteConverter Image) : Prop :=
  (Z.of_nat (length (frames s)) < 65536)%Z ∧
  (0 ≤ width s < 65536)%Z ∧ (0 ≤ height s < 65536)%Z ∧
  (0 ≤ fps s < 256)%Z ∧
  (0 ≤ color_format s < 256)%Z ∧ (0 ≤ compression s < 256)%Z.

(** The unsigned value of bytes read least significant first: what a
    reader of the container computes from a header field. *)
Definition uint_of_le (bs : list byte) : Z :=
  foldr (λ b acc, Z_of_byte b + 256 * acc)%Z 0%Z bs.

(** ** [upload_animation.py]: [upload_animation] and [main] *)

(** What [requests.post] does: it answers with a status code and a body
    that [response.json()] parses or not, or it raises. *)
Inductive Outcome :=
| Response (status_code : Z) (json_parses : bool)
| RaisesTimeout
| RaisesConnectionError
| RaisesOther.

(** One call of [requests.post(url, files={'file': (filename, f,
    'application/octet-stream')}, timeout=30)]. *)
Record Request := mkRequest {
  req_url : string;
  req_filename : string;
  req_content : list byte;
  req_timeout : Z
}.

Fixpoint has_slash (p : string) : bool :=
  match p with
  | EmptyString => false
  | String c rest => Ascii.eqb c "/" || has_slash rest
  end.

(** [Path(filepath).name] for a path that names a file: the text after the
    last slash. *)
Fixpoint Path_name (filepath : string) : string :=
  match filepath with
  | EmptyString => EmptyString
  | String c rest => if has_slash filepath then Path_name rest else filepath
  end.

(** Returns the calls of [requests.post] made and the boolean returned.
    A file that cannot be opened raises inside the [try] and is caught by
    [except Exception]; so is a body that [response.json()] rejects. *)
Definition upload_animation (net : Request → Outcome) (d : Disk)
    (esp32_ip filepath : string) : list Request * bool :=
  let url := "http://" +:+ esp32_ip +:+ "/api/animations/upload" in
  match files d !! filepath with
  | None => ([], false)
  | Some content =>
      let filename := Path_name filepath in
      let request := mkRequest url filename content 30 in
      match net request with
      | Response status_code json_parses =>
          if (status_code =? 200)%Z then ([request], json_parses)
          else ([request], false)
      | RaisesTimeout => ([request], false)
      | RaisesConnectionError => ([request], false)
      | RaisesOther => ([request], false)
      end
  end.

(** [main] of [upload_animation.py], on [sys.argv]: the calls of
    [requests.post] made and the exit code. *)
Definition upload_main (net : Request → Outcome) (d : Disk)
    (argv : list string) : list Request * Z :=
  match argv with
  | [_; esp32_ip; filepath] =>
      if negb (validate_spr_file d filepath) then ([], 1%Z)
      else
        let '(sent, success) := upload_animation net d esp32_ip filepath in
        (sent, if success then 0%Z else 1%Z)
  | _ => ([], 1%Z)
  end.

(** ** A concrete image library and world, for running the tools *)

(** A bitmap: mode flag, size, raw bytes and colour table.  The instance
    below is exact on all-black pictures, which is all the runs here use:
    quantizing yields a table of 256 black entries and index 0 everywhere.
    Its table is padded to 256 entries, also for a picture without pixels;
    [trimmed_lib] further down is the library that does not pad. *)
Record Bitmap := mkBitmap {
  bm_rgb : bool;
  bm_size : Z * Z;
  bm_data : list byte;
  bm_palette : list byte
}.

Definition black (rgb : bool) (sz : Z * Z) (table : list byte) : Bitmap :=
  let n := Z.to_nat (sz.1 * sz.2) in
  mkBitmap rgb sz (replicate (if rgb then 3 * n else n) x00) table.

#[global] Instance black_lib : ImageLib Bitmap := {|
  Image_new_RGB sz := black true sz [];
  Image_size := bm_size;
  Image_is_RGB := bm_rgb;
  Image_convert_RGB img := black true (bm_size img) [];
  Image_paste canvas img box := canvas;
  Image_quantize img colors method :=
    black false (bm_size img) (replicate (Z.to_nat colors * 3) x00);
  Image_quantize_to img q := black false (bm_size img) (bm_palette q);
  Image_getpalette := bm_palette;
  Image_tobytes := bm_data;
  Image_resize img sz :=
    if (0 <? sz.1)%Z && (0 <? sz.2)%Z
    then Some (black (bm_rgb img) sz (bm_palette img)) else None
|}.

(** A folder [anim] of three 4x4 frames beside a text file, a folder [mixed]
    whose second frame is 8x4, a folder [empty] without image files, a GIF
    [anim.gif] of two frames with a frame time of 50 ms, a GIF [still.gif]
    whose frame time is 0, and a GIF [uneven.gif] whose second frame is 8x4
    on a screen of 4x4.  No test pattern is drawn in it: the one run on
    [test] here asks for no frame. *)
Definition demo_world : World Bitmap := {|
  listdir p :=
    if String.eqb p "anim" then Some ["f2.png"; "notes.txt"; "f0.png"; "f1.PNG"]
    else if String.eqb p "mixed" then Some ["b.png"; "a.png"]
    else if String.eqb p "empty" then Some ["notes.txt"]
    else None;
  Image_open p :=
    if String.eqb p "mixed/b.png" then Some (black true (8, 4)%Z [])
    else Some (black true (4, 4)%Z []);
  Gif_open p :=
    if String.eqb p "anim.gif" then
      Some (mkGif (4, 4)%Z (Some 50%Z)
                  [black false (4, 4)%Z []; black false (4, 4)%Z []])
    else if String.eqb p "still.gif" then
      Some (mkGif (4, 4)%Z (Some 0%Z) [black false (4, 4)%Z []])
    else if String.eqb p "uneven.gif" then
      Some (mkGif (4, 4)%Z (Some 100%Z)
                  [black false (4, 4)%Z []; black false (8, 4)%Z []])
    else None;
  render pattern w h n i := None
|}.

Definition run (input output : string) (fps : option Z) : Argv :=
  mkArgv input output fps None None None None.

Definition empty_disk (space : nat) : Disk := mkDisk ∅ space ∅.

(** The runs used below. *)
Definition demo_argv : Argv := run "anim" "out.spr" (Some 10%Z).

Definition no_frames_argv : Argv :=
  mkArgv "test" "out.spr" None None None None (Some 0%Z).

(** The converter after [load] on the folder [anim] of [demo_world], at 10
    frames per second, and after [generate_palette] on top of that. *)
Definition demo_loaded : SpriteConverter Bitmap :=
  match load demo_world (parse_args demo_argv) with
  | Ok s => s
  | Raise _ => init
  end.

Definition demo_converter : SpriteConverter Bitmap :=
  match generate_palette demo_loaded with
  | Ok s => s
  | Raise _ => init
  end.

(** The converter after [load] on [anim.gif], asked for 30 frames per
    second, and after [load] on [uneven.gif]. *)
Definition demo_gif_loaded : SpriteConverter Bitmap :=
  match load demo_world (parse_args (run "anim.gif" "out.spr" (Some 30%Z))) with
  | Ok s => s
  | Raise _ => init
  end.

Definition uneven_argv : Argv := run "uneven.gif" "out.spr" None.

Definition demo_uneven : SpriteConverter Bitmap :=
  match load demo_world (parse_args uneven_argv) with
  | Ok s => s
  | Raise _ => init
  end.

(** Files as the uploader may find them. *)
Definition demo_upload : Disk :=
  mkDisk {[ "good.spr" := [x49; x4b; x4f; x44]; "zero.spr" := [x00; x00; x00; x00];
            "tiny.spr" := [x49; x4b] ]} 0 ∅.

(** A device that answers every upload with status 200 and a JSON body,
    and one that cannot be reached. *)
Definition demo_device (r : Request) : Outcome := Response 200 true.
Definition no_device (r : Request) : Outcome := RaisesConnectionError.

(** The header and the palette rows of [demo_converter], packed. *)
Definition demo_header : list byte :=
  match pack_header demo_converter with
  | Ok hdr => hdr
  | Raise _ => []
  end.

Definition demo_rows : list (list byte) :=
  match mapM pack_BBBB (palette demo_converter) with
  | Ok rows => rows
  | Raise _ => []
  end.

(** A converter whose frame rate does not fit the header. *)
Definition too_fast : SpriteConverter Bitmap := set_fps demo_converter 300.

(** [anim.gif out.spr --width 100]: a width without a height. *)
Definition width_only_argv : Argv :=
  mkArgv "anim.gif" "out.spr" None None (Some 100%Z) None None.

(** [--width -1 --height -1] on a GIF. *)
Definition negative_size_argv : Argv :=
  mkArgv "anim.gif" "out.spr" None None (Some (-1)%Z) (Some (-1)%Z) None.

(** ** The writes of [write_sprite], as one stream *)

(** Each [f.write(...)] of the three writers writes one chunk; packing a
    chunk may raise before anything of it is written. *)
Definition write_chunks (f : string) (chunks : list (result (list byte))) : IO unit :=
  for_each (λ c, bs ← lift c; write f bs) chunks.

Definition chunks {Image} `{!ImageLib Image} (s : SpriteConverter Image)
    : list (result (list byte)) :=
  pack_header s :: (pack_BBBB <$> palette s) ++ ((Ok ∘ Image_tobytes) <$> frames s).

(** The claim of C9 read on one run: when the run raises, no file is at
    the output path afterwards. *)
Definition leaves_no_output {Image} `{!ImageLib Image} (W : World Image)
    (argv : Argv) (d : Disk) : Prop :=
  ∀ d' e, main W argv d = (d', Raise e) → files d' !! argv_output argv = None.

(** The claim of C6 read on one run: when the frames that were loaded
    differ in size, the run raises the [ValueError] of the size check. *)
Definition rejects_different_sizes {Image} `{!ImageLib Image} (W : World Image)
    (argv : Argv) (d : Disk) : Prop :=
  ∀ s first frame,
    load W (parse_args argv) = Ok s →
    frames s !! 0 = Some first → frame ∈ frames s →
    Image_size frame ≠ Image_size first →
    ∃ idx sz, (main W argv d).2 = Raise (ValueError (DifferentSize idx sz)).

(** The claim of C10 read on one run: a caller who asks for 30 frames per
    second on a GIF gets the rate derived from the GIF's frame time. *)
Definition asks_30_gets_gif_rate {Image} `{!ImageLib Image} (W : World Image)
    (argv : Argv) : Prop :=
  opt_fps argv = Some 30%Z →
  ∀ gif s', Gif_open W (argv_input argv) = Some gif →
            load W (parse_args argv) = Ok s' →
            gif_fps (default 100%Z (gif_duration gif)) = Some (fps s').

(** The same library with a palette table that holds the colours in use
    only: a picture without pixels quantizes to an empty table. *)
Definition trimmed_lib : ImageLib Bitmap := {|
  Image_new_RGB sz := black true sz [];
  Image_size := bm_size;
  Image_is_RGB := bm_rgb;
  Image_convert_RGB img := black true (bm_size img) [];
  Image_paste canvas img box := canvas;
  Image_quantize img colors method :=
    black false (bm_size img)
      (if ((bm_size img).1 * (bm_size img).2 <=? 0)%Z then []
       else replicate (Z.to_nat colors * 3) x00);
  Image_quantize_to img q := black false (bm_size img) (bm_palette q);
  Image_getpalette := bm_palette;
  Image_tobytes := bm_data;
  Image_resize img sz :=
    if (0 <? sz.1)%Z && (0 <? sz.2)%Z
    then Some (black (bm_rgb img) sz (bm_palette img)) else None
|}.

(** * Properties *)

(** ** Monads *)

Lemma result_bind_Ok {A B} (r : result A) (f : A → result B) (b : B) :
  r ≫= f = Ok b → ∃ a, r = Ok a ∧ f a = Ok b.
Proof. destruct r as [a|e]; [eauto | discriminate]. Qed.

Lemma result_bind_Raise {A B} (r : result A) (f : A → result B) (e : Exception) :
  r ≫= f = Raise e → r = Raise e ∨ ∃ a, r = Ok a ∧ f a = Raise e.
Proof.
  intros H. destruct r as [a|e']; [right; eauto | left].
  change (@Raise B e' = Raise e) in H. congruence.
Qed.

Lemma IO_bind_unfold {A B} (m : IO A) (f : A → IO B) (d : Disk) :
  (m ≫= f) d =
  match m d with
  | (d', Ok a) => f a d'
  | (d', Raise e) => (d', Raise e)
  end.
Proof. reflexivity. Qed.

Lemma IO_bind_ext {A B} (m1 m2 : IO A) (f g : A → IO B) (d : Disk) :
  m1 d = m2 d → (∀ a d', f a d' = g a d') → (m1 ≫= f) d = (m2 ≫= g) d.
Proof.
  intros Hm Hfg. rewrite !IO_bind_unfold, Hm.
  destruct (m2 d) as [d' [a|e]]; [apply Hfg | done].
Qed.

(** Splits a hypothesis [r ≫= f = Ok b] into its two steps, repeatedly. *)
Ltac bind_inv :=
  repeat match goal with
  | H : _ ≫= _ = Ok _ |- _ =>
      apply result_bind_Ok in H; destruct H as (? & ? & H)
  | H : Ok _ = Ok _ |- _ => injection H as H
  end.

(** ** [struct.pack] *)

Lemma le_bytes_length (n : nat) (v : Z) : length (le_bytes n v) = n.
Proof. unfold le_bytes. by rewrite length_fmap, length_seq. Qed.

Lemma pack_uint_Ok (n : nat) (v : Z) (bs : list byte) :
  pack_uint n v = Ok bs →
  bs = le_bytes n v ∧ (0 ≤ v < 2 ^ (8 * Z.of_nat n))%Z.
Proof.
  unfold pack_uint. intros H.
  destruct (0 <=? v)%Z eqn:Hlo; [|discriminate].
  destruct (v <? 2 ^ (8 * Z.of_nat n))%Z eqn:Hhi; [|discriminate].
  simpl in H. injection H as <-. split; [done | lia].
Qed.

Lemma pack_uint_Raise (n : nat) (v : Z) (e : Exception) :
  pack_uint n v = Raise e → e = StructError.
Proof. unfold pack_uint. case_match; congruence. Qed.

Lemma pack_uint_in_range (n : nat) (v : Z) :
  (0 ≤ v < 2 ^ (8 * Z.of_nat n))%Z → pack_uint n v = Ok (le_bytes n v).
Proof.
  intros [Hlo Hhi]. unfold pack_uint.
  by rewrite (proj2 (Z.leb_le _ _) Hlo), (proj2 (Z.ltb_lt _ _) Hhi).
Qed.

Lemma pack_uint_length (n : nat) (v : Z) (bs : list byte) :
  pack_uint n v = Ok bs → length bs = n.
Proof. intros [-> _]%pack_uint_Ok. apply le_bytes_length. Qed.

Lemma pack_B_byte (b : byte) : pack_B (Z_of_byte b) = Ok [b].
Proof. by destruct b. Qed.

Lemma pack_BBBB_bytes (r g b : byte) :
  pack_BBBB (Z_of_byte r, Z_of_byte g, Z_of_byte b, 255%Z) = Ok [r; g; b; xff].
Proof. unfold pack_BBBB. by rewrite !pack_B_byte. Qed.

Lemma pack_BBBB_Raise (e4 : Z * Z * Z * Z) (e : Exception) :
  pack_BBBB e4 = Raise e → e = StructError.
Proof.
  destruct e4 as [[[r g] b] a]. unfold pack_BBBB, pack_B. intros H.
  repeat (apply result_bind_Raise in H as [H | (? & _ & H)];
          [by apply pack_uint_Raise in H |]).
  discriminate.
Qed.

(** The magic number and the version as they lie in the file. *)
Lemma magic_bytes_on_disk :
  pack_I SPRITE_MAGIC = Ok [x49; x4b; x4f; x44] ∧ pack_H 1 = Ok [x01; x00].
Proof. split; reflexivity. Qed.

(** ** Loops over the disk *)

Lemma for_each_ext {A} (body1 body2 : A → IO unit) (l : list A) (d : Disk) :
  (∀ x d, body1 x d = body2 x d) →
  for_each body1 l d = for_each body2 l d.
Proof.
  intros Hext. revert d. induction l as [|x l IH]; intros d; [done|].
  simpl. rewrite !IO_bind_unfold, Hext.
  destruct (body2 x d) as [d1 [[]|e]]; [apply IH | done].
Qed.

Lemma for_each_fmap {A B} (g : A → B) (body : B → IO unit) (l : list A) (d : Disk) :
  for_each body (g <$> l) d = for_each (λ x, body (g x)) l d.
Proof.
  revert d. induction l as [|x l IH]; intros d; [done|].
  simpl. rewrite !IO_bind_unfold.
  destruct (body (g x) d) as [d1 [[]|e]]; [apply IH | done].
Qed.

Lemma for_each_app {A} (body : A → IO unit) (l1 l2 : list A) (d : Disk) :
  for_each body (l1 ++ l2) d = (for_each body l1;; for_each body l2) d.
Proof.
  revert d. induction l1 as [|x l1 IH]; intros d.
  - simpl. rewrite IO_bind_unfold. done.
  - simpl. rewrite !IO_bind_unfold.
    destruct (body x d) as [d1 [[]|e]]; [|done].
    rewrite IH, IO_bind_unfold. done.
Qed.

(** The three writers of [write_sprite] issue exactly the chunks of
    [chunks], in that order. *)
Lemma writers_as_chunks {Image} `{!ImageLib Image} (s : SpriteConverter Image)
    (f : string) (d : Disk) :
  (_write_header s f;; _write_palette s f;; _write_frames s f) d
  = write_chunks f (chunks s) d.
Proof.
  unfold write_chunks, chunks, _write_header. simpl for_each.
  apply IO_bind_ext; [done|]. intros _ d1.
  rewrite for_each_app. apply IO_bind_ext.
  - unfold _write_palette. by rewrite for_each_fmap.
  - intros _ d2. unfold _write_frames. rewrite for_each_fmap.
    by apply for_each_ext.
Qed.

Lemma write_sprite_as_chunks {Image} `{!ImageLib Image} (s : SpriteConverter Image)
    (output_path : string) (d : Disk) :
  write_sprite s output_path d
  = (f ← open_wb output_path; write_chunks f (chunks s)) d.
Proof.
  unfold write_sprite. rewrite !IO_bind_unfold.
  destruct (open_wb output_path d) as [d1 [f|e]]; [|done].
  apply writers_as_chunks.
Qed.

Lemma write_chunks_cons (f : string) (c0 : result (list byte))
    (cs : list (result (list byte))) (d : Disk) :
  write_chunks f (c0 :: cs) d =
  match c0 with
  | Raise e => (d, Raise e)
  | Ok bs =>
      if (length bs <=? free d)%nat then
        write_chunks f cs
          (mkDisk (<[f := default [] (files d !! f) ++ bs]> (files d))
                  (free d - length bs) (readonly d))
      else
        (mkDisk (<[f := default [] (files d !! f) ++ take (free d) bs]> (files d))
                0 (readonly d), Raise (OSError OpWrite))
  end.
Proof.
  destruct c0 as [bs|e]; [|reflexivity].
  change (write_chunks f (Ok bs :: cs) d) with
    (match write f bs d with
     | (d', Ok _) => write_chunks f cs d'
     | (d', Raise e) => (d', Raise e)
     end).
  unfold write. by destruct (_ <=? _)%nat.
Qed.

(** What a stream of writes does to the file at [f], whose content was
    [c]: bytes are appended to it, as many as the medium loses; every other
    file and the read-only set are as before; and the stream ends well
    exactly when every chunk packed and fitted, the bytes appended being
    then the chunks in a row. *)
Lemma write_chunks_run (f : string) (cs : list (result (list byte))) :
  Forall (λ c, ∀ e, c = Raise e → e = StructError) cs →
  ∀ (d : Disk) (c : list byte), files d !! f = Some c →
  ∃ written : list byte,
    files (write_chunks f cs d).1 = <[f := c ++ written]> (files d) ∧
    readonly (write_chunks f cs d).1 = readonly d ∧
    free d = free (write_chunks f cs d).1 + length written ∧
    match (write_chunks f cs d).2 with
    | Ok _ => ∃ packed, mapM id cs = Ok packed ∧ written = concat packed
    | Raise e => e = StructError ∨ e = OSError OpWrite
    end.
Proof.
  induction 1 as [|c0 cs Hc0 _ IH]; intros d c Hc.
  - exists []. simpl. rewrite app_nil_r, insert_id by done.
    split_and!; [done..|]. by exists [].
  - rewrite write_chunks_cons. destruct c0 as [bs|e].
    + destruct (length bs <=? free d)%nat eqn:Hfit.
      * apply Nat.leb_le in Hfit. rewrite Hc. simpl default.
        set (d1 := mkDisk _ _ _).
        destruct (IH d1 (c ++ bs)) as (written & Hfiles & Hro & Hfree & Hres).
        { apply lookup_insert_eq. }
        exists (bs ++ written).
        rewrite Hfiles, Hro. simpl in Hfree |- *.
        rewrite insert_insert_eq, <- app_assoc.
        split_and!; [done | done | rewrite length_app; lia |].
        destruct (write_chunks f cs d1).2 as [[]|e]; [|done].
        destruct Hres as (packed & Hpacked & ->).
        exists (bs :: packed). by rewrite Hpacked.
      * apply Nat.leb_gt in Hfit. exists (take (free d) bs). simpl.
        rewrite Hc, length_take. simpl.
        split_and!; [done | done | lia | by right].
    + exists []. simpl. rewrite app_nil_r, insert_id by done.
      split_and!; [done | done | lia |]. left. by apply Hc0.
Qed.

(** ** [mapM] *)

Lemma mapM_cons {A B} (f : A → result B) (x : A) (l : list A) :
  mapM f (x :: l) = (y ← f x; ys ← mapM f l; Ok (y :: ys)).
Proof. reflexivity. Qed.

Lemma mapM_fmap {A B C} (g : A → B) (f : B → result C) (l : list A) :
  mapM f (g <$> l) = mapM (λ x, f (g x)) l.
Proof. induction l as [|x l IH]; [done|]. csimpl. by rewrite IH. Qed.

Lemma mapM_Ok {A B} (g : A → B) (l : list A) :
  mapM (λ x, Ok (g x)) l = Ok (g <$> l).
Proof. induction l as [|x l IH]; [done|]. csimpl. by rewrite IH. Qed.

Lemma mapM_app_Ok {A B} (f : A → result B) (l1 l2 : list A) (ys : list B) :
  mapM f (l1 ++ l2) = Ok ys →
  ∃ ys1 ys2, mapM f l1 = Ok ys1 ∧ mapM f l2 = Ok ys2 ∧ ys = ys1 ++ ys2.
Proof.
  revert ys. induction l1 as [|x l1 IH]; intros ys H; simpl in *.
  - by exists [], ys.
  - apply result_bind_Ok in H as (y & Hy & H).
    apply result_bind_Ok in H as (ys' & Hys' & [= <-]).
    destruct (IH _ Hys') as (ys1 & ys2 & -> & -> & ->).
    rewrite Hy. by exists (y :: ys1), ys2.
Qed.

Lemma mapM_length {A B} (f : A → result B) (l : list A) (ys : list B) :
  mapM f l = Ok ys → length ys = length l.
Proof.
  revert ys. induction l as [|x l IH]; intros ys H; simpl in *.
  - by injection H as <-.
  - apply result_bind_Ok in H as (y & Hy & H).
    apply result_bind_Ok in H as (ys' & Hys' & [= <-]).
    simpl. f_equal. by apply IH.
Qed.

Lemma mapM_lookup {A B} (f : A → result B) (l : list A) (ys : list B) (i : nat) (x : A) :
  mapM f l = Ok ys → l !! i = Some x → ∃ y, f x = Ok y ∧ ys !! i = Some y.
Proof.
  revert ys i. induction l as [|x' l IH]; intros ys i H Hi; [done|].
  simpl in H. apply result_bind_Ok in H as (y & Hy & H).
  apply result_bind_Ok in H as (ys' & Hys' & [= <-]).
  destruct i as [|i]; simpl in *.
  - injection Hi as ->. eauto.
  - eapply IH; eauto.
Qed.

(** A list comprehension succeeds when each of its elements does. *)
Lemma mapM_total {A B} (f : A → result B) (l : list A) :
  (∀ x, x ∈ l → ∃ y, f x = Ok y) → ∃ ys, mapM f l = Ok ys.
Proof.
  induction l as [|x l IH]; intros Hall; [by exists []|].
  destruct (Hall x) as [y Hy]; [left|].
  destruct IH as [ys Hys]; [intros x' Hx'; apply Hall; by right|].
  exists (y :: ys). simpl. by rewrite Hy, Hys.
Qed.

(** It raises what its first failing element raises. *)
Lemma mapM_Raise {A B} (f : A → result B) (l : list A) (e : Exception) :
  mapM f l = Raise e → ∃ x, x ∈ l ∧ f x = Raise e.
Proof.
  induction l as [|x l IH]; intros H; [done|]. simpl in H.
  apply result_bind_Raise in H as [H | (y & _ & H)].
  - exists x. split; [left | done].
  - apply result_bind_Raise in H as [H | (ys & _ & H)]; [|done].
    destruct (IH H) as (x' & Hin & Hx'). exists x'. split; [by right | done].
Qed.

(** ** The header *)

Section Header.
Context {Image : Type} `{!ImageLib Image}.
Implicit Types s : SpriteConverter Image.

(** The eight fields, in file order, when they all fit. *)
Lemma pack_header_Ok s (hdr : list byte) :
  pack_header s = Ok hdr →
  hdr = [x49; x4b; x4f; x44; x01; x00]
        ++ le_bytes 2 (Z.of_nat (length (frames s)))
        ++ le_bytes 2 (width s) ++ le_bytes 2 (height s)
        ++ le_bytes 1 (fps s) ++ le_bytes 1 (color_format s)
        ++ le_bytes 1 (compression s) ++ replicate 49 x00
  ∧ (Z.of_nat (length (frames s)) < 65536)%Z
  ∧ (0 ≤ width s < 65536)%Z ∧ (0 ≤ height s < 65536)%Z
  ∧ (0 ≤ fps s < 256)%Z.
Proof.
  unfold pack_header, pack_I, pack_H, pack_B. intros H. bind_inv.
  repeat match goal with
  | Hp : pack_uint _ _ = Ok _ |- _ => apply pack_uint_Ok in Hp as [-> ?]
  end.
  subst hdr. repeat split; try lia. 
Qed.

Lemma pack_header_length s (hdr : list byte) :
  pack_header s = Ok hdr → length hdr = 64.
Proof.
  intros (-> & _)%pack_header_Ok.
  rewrite !length_app, !le_bytes_length, length_replicate. done.
Qed.

Lemma pack_header_Raise s (e : Exception) :
  pack_header s = Raise e → e = StructError.
Proof.
  unfold pack_header, pack_I, pack_H, pack_B. intros H.
  repeat (apply result_bind_Raise in H as [H | (? & _ & H)];
          [by apply pack_uint_Raise in H |]).
  discriminate.
Qed.

Lemma chunks_raise_StructError s :
  Forall (λ c, ∀ e, c = Raise e → e = StructError) (chunks s).
Proof.
  unfold chunks. apply Forall_cons. split; [apply pack_header_Raise|].
  apply Forall_app. split; apply Forall_fmap, Forall_forall; intros x _ e.
  - apply pack_BBBB_Raise.
  - discriminate.
Qed.

(** The chunks of a run that ends well: header, palette entries, frames. *)
Lemma chunks_Ok s (written : list (list byte)) :
  mapM id (chunks s) = Ok written →
  ∃ hdr pal,
    pack_header s = Ok hdr ∧ mapM pack_BBBB (palette s) = Ok pal ∧
    written = hdr :: pal ++ (Image_tobytes <$> frames s).
Proof.
  unfold chunks. simpl. intros H.
  apply result_bind_Ok in H as (hdr & Hhdr & H).
  apply result_bind_Ok in H as (rest & Hrest & [= <-]).
  apply mapM_app_Ok in Hrest as (pal & frs & Hpal & Hfrs & ->).
  rewrite mapM_fmap in Hpal. rewrite mapM_fmap in Hfrs.
  simpl in Hfrs. rewrite mapM_Ok in Hfrs. injection Hfrs as <-.
  by exists hdr, pal.
Qed.

(** [write_sprite] either cannot open the path and changes nothing, or
    leaves at the path the bytes written up to the end or to the raise,
    and nothing of what the file held before. *)
Lemma write_sprite_run s (output_path : string) (d : Disk) :
  (output_path ∈ readonly d ∧
   write_sprite s output_path d = (d, Raise (OSError OpOpen)))
  ∨ ((output_path ∉ readonly d) ∧
     ∃ written : list byte,
       files (write_sprite s output_path d).1
         = <[output_path := written]> (files d) ∧
       readonly (write_sprite s output_path d).1 = readonly d ∧
       free d + length (default [] (files d !! output_path))
         = free (write_sprite s output_path d).1 + length written ∧
       match (write_sprite s output_path d).2 with
       | Ok _ => ∃ packed, mapM id (chunks s) = Ok packed ∧ written = concat packed
       | Raise e => e = StructError ∨ e = OSError OpWrite
       end).
Proof.
  rewrite write_sprite_as_chunks, IO_bind_unfold. unfold open_wb.
  destruct (decide (output_path ∈ readonly d)) as [Hro|Hro]; [by left|right].
  split; [done|].
  set (d1 := mkDisk _ _ _).
  destruct (write_chunks_run output_path (chunks s) (chunks_raise_StructError s)
              d1 []) as (written & Hfiles & Hro' & Hfree & Hres).
  { apply lookup_insert_eq. }
  exists written. rewrite Hfiles, Hro'. simpl in Hfree |- *.
  rewrite insert_insert_eq. split_and!; done.
Qed.

End Header.

(** ** Blocks of equal length *)

Lemma concat_uniform_length {A} (k : nat) (ls : list (list A)) :
  Forall (λ l, length l = k) ls → length (concat ls) = length ls * k.
Proof.
  induction 1 as [|l ls Hl _ IH]; [done|].
  simpl. rewrite length_app, Hl, IH. done.
Qed.

(** Block [i] of a concatenation of blocks of length [k] starts at [i * k]. *)
Lemma concat_uniform_block {A} (k : nat) (ls : list (list A)) (i : nat) (l : list A) :
  Forall (λ l, length l = k) ls →
  ls !! i = Some l →
  take k (drop (i * k) (concat ls)) = l.
Proof.
  intros Hall. revert i. induction Hall as [|l0 ls Hl0 _ IH]; intros i Hi; [done|].
  destruct i as [|i]; simpl in *.
  - injection Hi as ->. by apply take_app_length'.
  - rewrite drop_app_ge by lia.
    replace (k + i * k - length l0) with (i * k) by lia. by apply IH.
Qed.

Lemma take_drop_3 {A} (l : list A) (n : nat) (x y z : A) :
  l !! n = Some x → l !! (n + 1) = Some y → l !! (n + 2) = Some z →
  take 3 (drop n l) = [x; y; z].
Proof.
  intros Hx Hy Hz. apply list_eq. intros i.
  rewrite lookup_take. case_decide as Hi.
  - rewrite lookup_drop.
    destruct i as [|[|[|i]]]; [| | |lia]; simpl.
    + by rewrite Nat.add_0_r.
    + done.
    + done.
  - by destruct i as [|[|[|i]]]; [lia..|].
Qed.

(** ** [generate_palette] *)

Section Palette.
Context {Image : Type} `{!ImageLib Image}.
Implicit Types s : SpriteConverter Image.

Lemma getitem_Ok {A} (l : list A) (i : nat) (x : A) :
  getitem l i = Ok x ↔ l !! i = Some x.
Proof. unfold getitem. destruct (l !! i); naive_solver. Qed.

Lemma getitem_Raise {A} (l : list A) (i : nat) (e : Exception) :
  getitem l i = Raise e → e = IndexError ∧ length l ≤ i.
Proof.
  unfold getitem. destruct (l !! i) eqn:Hi; [done|].
  intros [= <-]. split; [done|]. by apply lookup_ge_None.
Qed.

(** One round of the loop: the three values at [3i], [3i+1], [3i+2]. *)
Lemma palette_entry_Ok (pd : list byte) (i : nat) (e : Z * Z * Z * Z) :
  palette_entry pd i = Ok e →
  ∃ r g b, take 3 (drop (i * 3) pd) = [r; g; b] ∧
           e = (Z_of_byte r, Z_of_byte g, Z_of_byte b, 255%Z).
Proof.
  unfold palette_entry. intros H.
  apply result_bind_Ok in H as (r & Hr%getitem_Ok & H).
  apply result_bind_Ok in H as (g & Hg%getitem_Ok & H).
  apply result_bind_Ok in H as (b & Hb%getitem_Ok & [= <-]).
  exists r, g, b. split; [by apply take_drop_3 | done].
Qed.

Lemma palette_entry_in_range (pd : list byte) (i : nat) :
  i * 3 + 2 < length pd → ∃ e, palette_entry pd i = Ok e.
Proof.
  intros Hi. unfold palette_entry, getitem.
  destruct (lookup_lt_is_Some_2 pd (i * 3)) as [r ->]; [lia|].
  destruct (lookup_lt_is_Some_2 pd (i * 3 + 1)) as [g ->]; [lia|].
  destruct (lookup_lt_is_Some_2 pd (i * 3 + 2)) as [b ->]; [lia|].
  eauto.
Qed.

Lemma palette_entry_Raise (pd : list byte) (i : nat) (e : Exception) :
  palette_entry pd i = Raise e → e = IndexError ∧ length pd ≤ i * 3 + 2.
Proof.
  unfold palette_entry. intros H.
  apply result_bind_Raise in H as [H%getitem_Raise | (? & _ & H)]; [intuition lia|].
  apply result_bind_Raise in H as [H%getitem_Raise | (? & _ & H)]; [intuition lia|].
  apply result_bind_Raise in H as [H%getitem_Raise | (? & _ & H)]; [intuition lia|].
  discriminate.
Qed.

(** The palette loop over any list of indices: entry by entry, the three
    table values and alpha 255; serialized, four bytes per entry. *)
Lemma palette_loop (pd : list byte) (idxs : list nat) (pal : list (Z * Z * Z * Z)) :
  mapM (palette_entry pd) idxs = Ok pal →
  Forall (λ e, e.2 = 255%Z) pal ∧
  mapM pack_BBBB pal = Ok ((λ i, take 3 (drop (i * 3) pd) ++ [xff]) <$> idxs).
Proof.
  revert pal. induction idxs as [|i idxs IH]; intros pal H; simpl in H.
  - injection H as <-. by split.
  - apply result_bind_Ok in H as (e & He & H).
    apply result_bind_Ok in H as (pal' & Hpal' & [= <-]).
    destruct (IH _ Hpal') as [Ha Hpack].
    apply palette_entry_Ok in He as (r & g & b & Htake & ->).
    split; [by constructor|].
    by rewrite fmap_cons, Htake, mapM_cons, pack_BBBB_bytes, Hpack.
Qed.

(** [generate_palette] raises nothing but the [IndexError] of the palette
    loop, and that only on a table of fewer than 768 values. *)
Lemma generate_palette_Raise s (e : Exception) :
  generate_palette s = Raise e →
  e = IndexError ∧ length (Image_getpalette (quantized s)) < 768.
Proof.
  unfold generate_palette. intros H.
  apply result_bind_Raise in H as [H | (? & _ & H)]; [|done].
  apply mapM_Raise in H as (i & Hi%elem_of_seq & H).
  apply palette_entry_Raise in H as [-> Hlen]. split; [done | lia].
Qed.

Lemma generate_palette_short_table s :
  length (Image_getpalette (quantized s)) < 768 →
  generate_palette s = Raise IndexError.
Proof.
  intros Hlen. destruct (generate_palette s) as [s'|e] eqn:H.
  - exfalso. unfold generate_palette in H.
    apply result_bind_Ok in H as (pal & Hpal & _).
    destruct (mapM_lookup _ _ _ 255 255 Hpal) as (e & He & _).
    { by apply lookup_seq_lt; lia. }
    apply palette_entry_Ok in He as (r & g & b & Htake & _).
    apply (f_equal length) in Htake.
    rewrite length_take, length_drop in Htake. simpl length in Htake. lia.
  - by apply generate_palette_Raise in H as [-> _].
Qed.

Lemma generate_palette_Ok s s' :
  generate_palette s = Ok s' →
  mapM (palette_entry (Image_getpalette (quantized s))) (seq 0 256)
    = Ok (palette s') ∧
  frames s' = (λ frame, Image_quantize_to frame (quantized s)) <$> frames s ∧
  width s' = width s ∧ height s' = height s ∧ fps s' = fps s ∧
  color_format s' = color_format s ∧ compression s' = compression s.
Proof.
  unfold generate_palette. intros H.
  apply result_bind_Ok in H as (pal & Hpal & [= <-]). by rewrite Hpal.
Qed.

Lemma generate_palette_full_table s :
  768 ≤ length (Image_getpalette (quantized s)) →
  ∃ s', generate_palette s = Ok s'.
Proof.
  intros Hlen.
  destruct (mapM_total (palette_entry (Image_getpalette (quantized s)))
              (seq 0 256)) as [pal Hpal].
  { intros i Hi%elem_of_seq. apply palette_entry_in_range. lia. }
  unfold generate_palette. rewrite Hpal. eauto.
Qed.

End Palette.

(** ** Runs of [main] *)

Section Run.
Context {Image : Type} `{!ImageLib Image}.
Implicit Types s : SpriteConverter Image.

(** [main] is its three phases in a row; only the last one has the disk. *)
Lemma main_run (W : World Image) (argv : Argv) (d : Disk) :
  main W argv d =
  match load W (parse_args argv) with
  | Raise e => (d, Raise e)
  | Ok s =>
      match generate_palette s with
      | Raise e => (d, Raise e)
      | Ok s' => write_sprite s' (argv_output argv) d
      end
  end.
Proof.
  unfold main. rewrite IO_bind_unfold. unfold lift at 1.
  destruct (load W (parse_args argv)) as [s|e]; [|done].
  rewrite IO_bind_unfold. unfold lift.
  by destruct (generate_palette s).
Qed.

Lemma pack_BBBB_length (e : Z * Z * Z * Z) (bs : list byte) :
  pack_BBBB e = Ok bs → length bs = 4.
Proof.
  destruct e as [[[r g] b] a]. unfold pack_BBBB, pack_B. intros H. bind_inv.
  repeat match goal with
  | Hp : pack_uint _ _ = Ok _ |- _ => apply pack_uint_length in Hp
  end.
  subst bs. rewrite !length_app. lia.
Qed.

Lemma palette_rows_length (pal : list (Z * Z * Z * Z)) (rows : list (list byte)) :
  mapM pack_BBBB pal = Ok rows → Forall (λ r, length r = 4) rows.
Proof.
  revert rows. induction pal as [|e pal IH]; intros rows H; simpl in H.
  - injection H as <-. constructor.
  - apply result_bind_Ok in H as (r & Hr & H).
    apply result_bind_Ok in H as (rows' & Hrows' & [= <-]).
    constructor; [by eapply pack_BBBB_length | by apply IH].
Qed.

(** A stream of chunks that all pack and fit is appended whole. *)
Lemma write_chunks_fits (f : string) (bss : list (list byte)) (d : Disk)
    (c : list byte) :
  files d !! f = Some c →
  length (concat bss) ≤ free d →
  write_chunks f (Ok <$> bss) d =
  (mkDisk (<[f := c ++ concat bss]> (files d))
          (free d - length (concat bss)) (readonly d), Ok tt).
Proof.
  revert d c. induction bss as [|bs bss IH]; intros d c Hc Hfree.
  - simpl. rewrite app_nil_r, insert_id, Nat.sub_0_r by done. by destruct d.
  - rewrite fmap_cons, write_chunks_cons. simpl in Hfree.
    rewrite length_app in Hfree.
    rewrite (proj2 (Nat.leb_le _ _)) by lia.
    rewrite (IH _ (c ++ bs)); simpl.
    + rewrite Hc. simpl. rewrite insert_insert_eq, <- app_assoc, length_app.
      do 2 f_equal. lia.
    + rewrite Hc. apply lookup_insert_eq.
    + lia.
Qed.

Lemma mapM_Ok_fmap {A B} (f : A → result B) (l : list A) (ys : list B) :
  mapM f l = Ok ys → f <$> l = Ok <$> ys.
Proof.
  revert ys. induction l as [|x l IH]; intros ys H; simpl in H.
  - by injection H as <-.
  - apply result_bind_Ok in H as (y & Hy & H).
    apply result_bind_Ok in H as (ys' & Hys' & [= <-]).
    rewrite !fmap_cons, Hy. f_equal. by apply IH.
Qed.

Lemma _write_palette_as_chunks s (f : string) (d : Disk) :
  _write_palette s f d = write_chunks f (pack_BBBB <$> palette s) d.
Proof. unfold _write_palette, write_chunks. by rewrite for_each_fmap. Qed.

(** The file a run of [write_sprite] that ends well leaves: the header,
    the palette rows and the frames' bytes, and nothing else. *)
Lemma write_sprite_Ok s (output_path : string) (d d' : Disk) :
  write_sprite s output_path d = (d', Ok tt) →
  ∃ hdr rows,
    pack_header s = Ok hdr ∧ mapM pack_BBBB (palette s) = Ok rows ∧
    files d' = <[output_path :=
                  hdr ++ concat rows ++ concat (Image_tobytes <$> frames s)]>
               (files d).
Proof.
  intros Hw.
  destruct (write_sprite_run s output_path d)
    as [[_ Hopen] | (_ & written & Hfiles & _ & _ & Hres)].
  - rewrite Hw in Hopen. discriminate.
  - rewrite Hw in Hfiles, Hres. simpl in Hfiles, Hres.
    destruct Hres as (packed & Hpacked & ->).
    apply chunks_Ok in Hpacked as (hdr & rows & Hhdr & Hrows & ->).
    exists hdr, rows. rewrite Hfiles. simpl. by rewrite concat_app.
Qed.

End Run.

(** ** The container *)

Section Container.
Context {Image : Type} `{!ImageLib Image}.
Implicit Types s : SpriteConverter Image.

(** C1.  A run of the converter that ends well leaves at the output path
    the 64 bytes of the header, then the 1024 bytes of the palette, then
    the bytes of the indexed frames in the order the frames were loaded,
    with no offset table in between.  When every indexed frame has
    [width * height] bytes (one byte per pixel, the library's layout
    for an indexed image), frame [n] starts at byte
    [1088 + n * width * height], the file has
    [1088 + N * width * height] bytes, and bytes 6-7 hold the frame count,
    low byte first; so three 4x4 frames give 1136 bytes with bytes 6-7
    equal to 03 00. *)
Theorem container_layout (W : World Image) (argv : Argv) (d d' : Disk) s :
  load W (parse_args argv) = Ok s →
  main W argv d = (d', Ok tt) →
  Forall (λ frame,
            length (Image_tobytes (Image_quantize_to frame (quantized s)))
            = Z.to_nat (width s * height s)) (frames s) →
  ∃ hdr pal out : list byte,
    files d' !! argv_output argv = Some out ∧
    out = hdr ++ pal
          ++ concat ((λ frame, Image_tobytes (Image_quantize_to frame (quantized s)))
                       <$> frames s) ∧
    length hdr = 64 ∧ length pal = 1024 ∧
    length out = 1088 + length (frames s) * Z.to_nat (width s * height s) ∧
    (∀ n frame, frames s !! n = Some frame →
       take (Z.to_nat (width s * height s))
            (drop (1088 + n * Z.to_nat (width s * height s)) out)
       = Image_tobytes (Image_quantize_to frame (quantized s))) ∧
    take 2 (drop 6 out) = le_bytes 2 (Z.of_nat (length (frames s))) ∧
    (length (frames s) = 3 → width s = 4%Z → height s = 4%Z →
       length out = 1136 ∧ take 2 (drop 6 out) = [x03; x00]).
Proof.
  intros Hload Hmain Hsize.
  rewrite main_run, Hload in Hmain.
  destruct (generate_palette s) as [s'|e] eqn:Hgp; [|discriminate].
  apply generate_palette_Ok in Hgp as (Hpal & Hfr & Hw & Hh & _).
  apply write_sprite_Ok in Hmain as (hdr & rows & Hhdr & Hrows & Hfiles).
  set (k := Z.to_nat (width s * height s)) in *.
  set (blocks := (λ frame, Image_tobytes (Image_quantize_to frame (quantized s)))
                   <$> frames s).
  assert (Hblocks : Forall (λ b, length b = k) blocks).
  { subst blocks. by apply Forall_fmap. }
  assert (Hlhdr : length hdr = 64) by by eapply pack_header_length.
  assert (Hlpal : length (concat rows) = 1024).
  { rewrite (concat_uniform_length 4) by by eapply palette_rows_length.
    apply mapM_length in Hrows, Hpal. rewrite Hrows, Hpal, length_seq. done. }
  assert (Hlout : length (hdr ++ concat rows ++ concat blocks)
                  = 1088 + length (frames s) * k).
  { rewrite !length_app, Hlhdr, Hlpal, (concat_uniform_length k) by done.
    subst blocks. rewrite length_fmap. lia. }
  assert (Hcount : take 2 (drop 6 (hdr ++ concat rows ++ concat blocks))
                   = le_bytes 2 (Z.of_nat (length (frames s)))).
  { apply pack_header_Ok in Hhdr as (-> & _). rewrite Hfr, length_fmap.
    reflexivity. }
  exists hdr, (concat rows), (hdr ++ concat rows ++ concat blocks).
  rewrite Hfiles, Hfr, lookup_insert_eq.
  replace (Image_tobytes <$> (_ <$> frames s)) with blocks
    by (subst blocks; by rewrite <- list_fmap_compose).
  split_and!; try done.
  - intros n frame Hn.
    rewrite app_assoc, drop_app_ge by (rewrite length_app; lia).
    rewrite length_app, Hlhdr, Hlpal.
    replace (1088 + n * k - (64 + 1024)) with (n * k) by lia.
    apply concat_uniform_block; [done|].
    subst blocks. by rewrite list_lookup_fmap, Hn.
  - intros HN Hw4 Hh4. rewrite Hlout, Hcount. subst k.
    by rewrite HN, Hw4, Hh4.
Qed.

(** C2.  Every file [write_sprite] completes starts with the magic number
    0x444F4B49 as a little-endian 32-bit word, the bytes 49 4B 4F 44
    ("IKOD"), followed at offset 4 by the 16-bit little-endian
    version 1. *)
Theorem magic_then_version s (output_path : string) (d d' : Disk) :
  write_sprite s output_path d = (d', Ok tt) →
  le_bytes 4 SPRITE_MAGIC = [x49; x4b; x4f; x44] ∧
  le_bytes 2 1 = [x01; x00] ∧
  ∃ rest, files d' !! output_path
          = Some (le_bytes 4 SPRITE_MAGIC ++ le_bytes 2 1 ++ rest).
Proof.
  intros (hdr & rows & Hhdr & _ & Hfiles)%write_sprite_Ok.
  do 2 (split; [reflexivity|]).
  apply pack_header_Ok in Hhdr as (-> & _).
  rewrite Hfiles, lookup_insert_eq. eexists. reflexivity.
Qed.

(** C3.  Whatever the frames and however many colours they hold, when
    the table the library returns for the quantized picture has its 768
    values, [generate_palette] ends well with a palette of exactly 256
    entries, entry [i] being the three table values at [3i], [3i+1],
    [3i+2] with alpha 255; and [_write_palette] appends exactly 1024
    bytes, the four bytes of entry [i] at [4i]. *)
Theorem palette_has_256_opaque_entries s :
  768 ≤ length (Image_getpalette (quantized s)) →
  ∃ s', generate_palette s = Ok s' ∧
    length (palette s') = 256 ∧
    Forall (λ e, e.2 = 255%Z) (palette s') ∧
    (∀ i r g b, i < 256 →
       take 3 (drop (i * 3) (Image_getpalette (quantized s))) = [r; g; b] →
       palette s' !! i = Some (Z_of_byte r, Z_of_byte g, Z_of_byte b, 255%Z)) ∧
    ∀ (f : string) (d : Disk) (c : list byte),
      files d !! f = Some c → 1024 ≤ free d →
      ∃ d' pb,
        _write_palette s' f d = (d', Ok tt) ∧
        files d' = <[f := c ++ pb]> (files d) ∧
        length pb = 1024 ∧
        ∀ i, i < 256 →
          take 4 (drop (i * 4) pb)
          = take 3 (drop (i * 3) (Image_getpalette (quantized s))) ++ [xff].
Proof.
  intros Hlen.
  destruct (generate_palette_full_table s Hlen) as [s' Hgp].
  exists s'. split; [done|].
  apply generate_palette_Ok in Hgp as (Hpal & _).
  set (pd := Image_getpalette (quantized s)) in *.
  pose proof (mapM_length _ _ _ Hpal) as Hlpal. rewrite length_seq in Hlpal.
  destruct (palette_loop _ _ _ Hpal) as [Halpha Hrows].
  pose proof (palette_rows_length _ _ Hrows) as Hrow4.
  set (rows := (λ i, take 3 (drop (i * 3) pd) ++ [xff]) <$> seq 0 256) in *.
  assert (Hlrows : length (concat rows) = 1024).
  { rewrite (concat_uniform_length 4) by done.
    subst rows. by rewrite length_fmap, length_seq. }
  repeat split; try done.
  - intros i r g b Hi Htake.
    destruct (mapM_lookup _ _ _ i i Hpal) as (e & He & ->).
    { by apply lookup_seq_lt. }
    apply palette_entry_Ok in He as (r' & g' & b' & Htake' & ->).
    rewrite Htake in Htake'. by injection Htake' as -> -> ->.
  - intros f d c Hc Hfree.
    eexists _, (concat rows).
    rewrite _write_palette_as_chunks, (mapM_Ok_fmap _ _ _ Hrows).
    rewrite (write_chunks_fits f rows d c) by (done || lia).
    repeat split; try done.
    intros i Hi. apply concat_uniform_block; [done|].
    subst rows. by rewrite list_lookup_fmap, lookup_seq_lt.
Qed.

End Container.

(** ** The validator *)

Lemma validate_spr_file_true (d : Disk) (filepath : string) :
  validate_spr_file d filepath = true ↔
  ∃ content, files d !! filepath = Some content ∧
             take 4 content = expected_magic ∧
             (Z.of_nat (length content) ≤ 1024 * 1024)%Z.
Proof.
  unfold validate_spr_file. destruct (files d !! filepath) as [content|].
  - destruct (length (take 4 content) <? 4) eqn:Hlen.
    + split; [done|]. intros (? & [= <-] & Hmagic & _).
      apply Nat.ltb_lt in Hlen. rewrite Hmagic in Hlen. simpl in Hlen. lia.
    + case_bool_decide as Hmagic; simpl.
      * destruct (1024 * 1024 <? Z.of_nat (length content))%Z eqn:Hsize.
        -- split; [done|]. intros (? & [= <-] & _ & Hle). lia.
        -- split; [|done]. intros _. exists content. split_and!; [done..|lia].
      * split; [done|]. by intros (? & [= <-] & ? & _).
  - split; [done|]. by intros (? & ? & _).
Qed.

(** C5.  A buffer of fewer than 4 bytes, or whose first 4 bytes are not
    49 4B 4F 44, is reported invalid; the 4-byte buffer 49 4B 4F 44 is
    reported valid, the 4-byte buffer of zeros invalid. *)
Theorem validator_checks_magic (d : Disk) (filepath : string) (buffer : list byte) :
  files d !! filepath = Some buffer →
  (length buffer < 4 ∨ take 4 buffer ≠ [x49; x4b; x4f; x44] →
   validate_spr_file d filepath = false) ∧
  (buffer = [x49; x4b; x4f; x44] → validate_spr_file d filepath = true) ∧
  (buffer = [x00; x00; x00; x00] → validate_spr_file d filepath = false).
Proof.
  intros Hbuf. split_and!.
  - intros Hbad. apply not_true_is_false.
    intros (content & Hc & Hmagic & _)%validate_spr_file_true.
    rewrite Hbuf in Hc. injection Hc as <-.
    destruct Hbad as [Hshort | Hne]; [|done].
    apply (f_equal length) in Hmagic. rewrite length_take in Hmagic.
    change (length expected_magic) with 4 in Hmagic. lia.
  - intros ->. apply validate_spr_file_true. by exists [x49; x4b; x4f; x44].
  - intros ->. unfold validate_spr_file. by rewrite Hbuf.
Qed.

(** ** Loading *)

Section Loading.
Context {Image : Type} `{!ImageLib Image}.
Implicit Types s : SpriteConverter Image.

(** Past the first frame, the loop of [load_from_folder] stops at the
    first frame whose size is not the recorded one. *)
Lemma load_frames_mismatch (W : World Image) (folder_path : string)
    (names : list string) :
  ∀ (imgs : list Image) (idx : nat) s,
  idx ≠ 0 →
  mapM (λ filename, reading (Image_open W (path_join folder_path filename)))
       names = Ok imgs →
  (∃ i frame, (to_RGB <$> imgs) !! i = Some frame ∧
              Image_size frame ≠ (width s, height s)) →
  ∃ k frame, (to_RGB <$> imgs) !! k = Some frame ∧
             Image_size frame ≠ (width s, height s) ∧
             (∀ j earlier, j < k → (to_RGB <$> imgs) !! j = Some earlier →
                           Image_size earlier = (width s, height s)) ∧
             load_frames W folder_path idx names s
             = Raise (ValueError (DifferentSize (idx + k) (Image_size frame))).
Proof.
  induction names as [|filename names IH]; intros imgs idx s Hidx Hopen Hbad.
  - injection Hopen as <-. by destruct Hbad as (i & frame & ? & _).
  - rewrite mapM_cons in Hopen.
    apply result_bind_Ok in Hopen as (img & Himg & Hopen).
    apply result_bind_Ok in Hopen as (imgs' & Himgs' & [= <-]).
    simpl load_frames. rewrite Himg. simpl.
    apply Nat.eqb_neq in Hidx as ->.
    destruct (decide (Image_size (to_RGB img) = (width s, height s))) as [Heq|Hne].
    + destruct Hbad as (i & frame & Hi & Hframe).
      destruct i as [|i]; [simpl in Hi; congruence|].
      destruct (IH imgs' (S idx) (set_frames s (frames s ++ [to_RGB img])))
        as (k & frame' & Hk & Hframe' & Hearlier & Hload); [done | done | |].
      { exists i, frame. split; [exact Hi | exact Hframe]. }
      exists (S k), frame'. split_and!; [done..| |].
      * intros [|j] earlier Hj Hlook; simpl in Hlook.
        -- by injection Hlook as <-.
        -- apply (Hearlier j); [lia | done].
      * simpl. rewrite Hload. do 3 f_equal. lia.
    + exists 0, (to_RGB img). split_and!; [done..| |].
      * intros j earlier Hj. lia.
      * by rewrite Nat.add_0_r.
Qed.

(** On a folder input: when the image files of the folder all open
    and some frame's size differs from the first frame's,
    [load_from_folder] raises the [ValueError] of the size check at the
    first such frame, and the conversion stops there: [main] raises it and
    the disk is as before, so no container is produced. *)
Theorem different_size_is_rejected (W : World Image) (argv : Argv) (d : Disk)
    (names : list string) (imgs : list Image) :
  String.eqb (lower (argv_input argv)) "test" = false →
  endswith (lower (argv_input argv)) ".gif" = false →
  listdir W (argv_input argv) = Some names →
  mapM (λ filename,
          reading (Image_open W (path_join (argv_input argv) filename)))
       (image_files names) = Ok imgs →
  (∃ i frame first,
     (to_RGB <$> imgs) !! 0 = Some first ∧
     (to_RGB <$> imgs) !! i = Some frame ∧
     Image_size frame ≠ Image_size first) →
  ∃ idx frame first,
    (to_RGB <$> imgs) !! 0 = Some first ∧
    (to_RGB <$> imgs) !! idx = Some frame ∧
    Image_size frame ≠ Image_size first ∧
    (∀ j earlier, j < idx → (to_RGB <$> imgs) !! j = Some earlier →
                  Image_size earlier = Image_size first) ∧
    load_from_folder W (set_fps init (default 30%Z (opt_fps argv)))
                     (argv_input argv)
    = Raise (ValueError (DifferentSize idx (Image_size frame))) ∧
    main W argv d = (d, Raise (ValueError (DifferentSize idx (Image_size frame)))).
Proof.
  intros Htest Hgif Hdir Hopen (i & frame & first & Hfirst & Hi & Hsize).
  set (s0 := set_fps init (default 30%Z (opt_fps argv))).
  assert (Hload : ∃ idx frame',
    (to_RGB <$> imgs) !! idx = Some frame' ∧
    Image_size frame' ≠ Image_size first ∧
    (∀ j earlier, j < idx → (to_RGB <$> imgs) !! j = Some earlier →
                  Image_size earlier = Image_size first) ∧
    load_from_folder W s0 (argv_input argv)
    = Raise (ValueError (DifferentSize idx (Image_size frame')))).
  { unfold load_from_folder. rewrite Hdir. simpl.
    destruct (image_files names) as [|filename rest]; simpl in Hopen.
    { injection Hopen as <-. done. }
    apply result_bind_Ok in Hopen as (img & Himg & Hopen).
    apply result_bind_Ok in Hopen as (imgs' & Himgs' & [= <-]).
    simpl in Hfirst. injection Hfirst as <-.
    simpl load_frames. rewrite Himg. simpl.
    destruct i as [|i]; [simpl in Hi; congruence|].
    destruct (load_frames_mismatch W (argv_input argv) rest imgs' 1
                (set_frames (set_size s0 (Image_size (to_RGB img)))
                            (frames s0 ++ [to_RGB img])))
      as (k & frame' & Hk & Hframe' & Hearlier & Hload); [done | done | |].
    { exists i, frame. split; [done|]. simpl. by destruct (Image_size (to_RGB img)). }
    exists (S k), frame'. split_and!; [done| | |done].
    - simpl in Hframe'. by destruct (Image_size (to_RGB img)).
    - intros [|j] earlier Hj Hlook; simpl in Hlook.
      + by injection Hlook as <-.
      + rewrite (Hearlier j earlier) by (done || lia). simpl.
        by destruct (Image_size (to_RGB img)). }
  destruct Hload as (idx & frame' & Hidx & Hframe' & Hearlier & Hload).
  exists idx, frame', first. split_and!; [done..|].
  rewrite main_run. unfold load. simpl. rewrite Htest, Hgif.
  fold s0. by rewrite Hload.
Qed.

End Loading.

(** ** Runs that end well *)

Section Success.
Context {Image : Type} `{!ImageLib Image}.
Implicit Types s : SpriteConverter Image.

Lemma pack_header_in_range s :
  (Z.of_nat (length (frames s)) < 65536)%Z →
  (0 ≤ width s < 65536)%Z → (0 ≤ height s < 65536)%Z →
  (0 ≤ fps s < 256)%Z →
  (0 ≤ color_format s < 256)%Z → (0 ≤ compression s < 256)%Z →
  ∃ hdr, pack_header s = Ok hdr.
Proof.
  intros. unfold pack_header, pack_I, pack_H, pack_B.
  rewrite (pack_uint_in_range 4 SPRITE_MAGIC) by done.
  rewrite (pack_uint_in_range 2 1) by done.
  rewrite !pack_uint_in_range by (simpl; lia).
  eauto.
Qed.

(** With the path writable and room for the whole container, counting
    the room the file that was there gives back, [write_sprite] ends well as
    soon as the header and the palette pack. *)
Lemma write_sprite_fits s (output_path : string) (d : Disk)
    (hdr : list byte) (rows : list (list byte)) :
  pack_header s = Ok hdr →
  mapM pack_BBBB (palette s) = Ok rows →
  output_path ∉ readonly d →
  length (hdr ++ concat rows ++ concat (Image_tobytes <$> frames s))
    ≤ free d + length (default [] (files d !! output_path)) →
  write_sprite s output_path d =
  (mkDisk (<[output_path :=
              hdr ++ concat rows ++ concat (Image_tobytes <$> frames s)]>
           (files d))
          (free d + length (default [] (files d !! output_path))
           - length (hdr ++ concat rows
                     ++ concat (Image_tobytes <$> frames s)))
          (readonly d), Ok tt).
Proof.
  intros Hhdr Hrows Hro Hfree.
  rewrite write_sprite_as_chunks, IO_bind_unfold. unfold open_wb.
  rewrite decide_False by done.
  assert (Hchunks : chunks s
    = Ok <$> (hdr :: rows ++ (Image_tobytes <$> frames s))).
  { unfold chunks. rewrite Hhdr, (mapM_Ok_fmap _ _ _ Hrows).
    by rewrite fmap_cons, fmap_app, <- list_fmap_compose. }
  rewrite Hchunks, (write_chunks_fits _ _ _ []); simpl.
  - by rewrite insert_insert_eq, concat_app.
  - apply lookup_insert_eq.
  - by rewrite concat_app.
Qed.

Lemma range_nonpositive (n : Z) : (n ≤ 0)%Z → range n = [].
Proof. intros Hn. unfold range. by replace (Z.to_nat n) with 0 by lia. Qed.

(** The guard of [load_from_folder]: a folder without image files raises
    the [ValueError] for no frames, before the disk is touched. *)
Lemma empty_folder_is_rejected (W : World Image) (argv : Argv) (d : Disk)
    (names : list string) :
  String.eqb (lower (argv_input argv)) "test" = false →
  endswith (lower (argv_input argv)) ".gif" = false →
  listdir W (argv_input argv) = Some names →
  image_files names = [] →
  main W argv d = (d, Raise (ValueError (NoImageFiles (argv_input argv)))).
Proof.
  intros Htest Hgif Hdir Hnone.
  rewrite main_run. unfold load. simpl. rewrite Htest, Hgif.
  unfold load_from_folder. rewrite Hdir. simpl. by rewrite Hnone.
Qed.

(** C7.  The guard is missing on the test-pattern path: with
    [--frames 0] (or less) the converter is filled with no frame at all,
    [main] never raises a [ValueError], and with a full palette table,
    header fields in range and room on the disk it writes a container of
    1088 bytes whose frame count is 0. *)
Theorem empty_test_pattern_is_converted (W : World Image) (argv : Argv)
    (d : Disk) (s : SpriteConverter Image) :
  String.eqb (lower (argv_input argv)) "test" = true →
  (args_frames (parse_args argv) ≤ 0)%Z →
  s = mkConverter [] (args_width (parse_args argv))
        (args_height (parse_args argv)) (args_fps (parse_args argv)) 0 0 [] →
  load W (parse_args argv) = Ok s ∧
  (∀ msg, (main W argv d).2 ≠ Raise (ValueError msg)) ∧
  (768 ≤ length (Image_getpalette (quantized s)) →
   (0 ≤ width s < 65536)%Z → (0 ≤ height s < 65536)%Z → (0 ≤ fps s < 256)%Z →
   argv_output argv ∉ readonly d → 1088 ≤ free d →
   ∃ out, (main W argv d).2 = Ok tt ∧
          files (main W argv d).1 !! argv_output argv = Some out ∧
          length out = 1088 ∧ take 2 (drop 6 out) = [x00; x00]).
Proof.
  intros Htest Hframes ->.
  set (s := mkConverter _ _ _ _ _ _ _).
  assert (Hload : load W (parse_args argv) = Ok s).
  { unfold load. simpl. rewrite Htest.
    unfold generate_test_pattern. by rewrite range_nonpositive. }
  split_and!; [done| |].
  - intros msg. rewrite main_run, Hload.
    destruct (generate_palette s) as [s'|e] eqn:Hgp.
    + destruct (write_sprite_run s' (argv_output argv) d)
        as [[_ ->] | (_ & written & _ & _ & _ & Hres)]; [done|].
      destruct (write_sprite s' (argv_output argv) d).2; [done|].
      destruct Hres as [-> | ->]; done.
    + apply generate_palette_Raise in Hgp as [-> _]. done.
  - intros Htable Hw Hh Hfps Hro Hfree.
    destruct (generate_palette_full_table s Htable) as [s' Hgp].
    rewrite main_run, Hload, Hgp.
    apply generate_palette_Ok in Hgp as (Hpal & Hfr & Hw' & Hh' & Hfps' & Hcf & Hcomp).
    destruct (palette_loop _ _ _ Hpal) as [_ Hrows].
    assert (Hnrows : length ((λ i, take 3 (drop (i * 3)
              (Image_getpalette (quantized s))) ++ [xff]) <$> seq 0 256) = 256)
      by by rewrite length_fmap, length_seq.
    remember (_ <$> seq 0 256) as rows eqn:Erows. clear Erows.
    assert (∃ hdr, pack_header s' = Ok hdr) as [hdr Hhdr].
    { apply pack_header_in_range;
        rewrite ?Hfr, ?Hw', ?Hh', ?Hfps', ?Hcf, ?Hcomp;
        first [assumption | simpl; lia]. }
    pose proof (pack_header_length _ _ Hhdr) as Hlhdr.
    pose proof (palette_rows_length _ _ Hrows) as Hrow4.
    pose proof (concat_uniform_length 4 _ Hrow4) as Hlrows.
    rewrite Hnrows in Hlrows.
    erewrite write_sprite_fits; [|done..|].
    + eexists. simpl. rewrite lookup_insert_eq. split_and!; [done..| |].
      * rewrite Hfr, !length_app, Hlhdr, Hlrows. done.
      * apply pack_header_Ok in Hhdr as (-> & _). by rewrite Hfr.
    + rewrite Hfr, !length_app, Hlhdr, Hlrows. simpl. lia.
Qed.

End Success.

(** ** Runs that raise *)

Section Failure.
Context {Image : Type} `{!ImageLib Image}.
Implicit Types s : SpriteConverter Image.

Lemma reading_Raise {A} (o : option A) (e : Exception) :
  reading o = Raise e → e = OSError OpRead.
Proof. destruct o; [done|]. by intros [= <-]. Qed.

Lemma calling_Raise {A} (o : option A) (e : Exception) :
  calling o = Raise e → e = LibraryError.
Proof. destruct o; [done|]. by intros [= <-]. Qed.

Lemma load_frames_Raise (W : World Image) (folder_path : string)
    (names : list string) :
  ∀ (idx : nat) s (e : Exception),
  load_frames W folder_path idx names s = Raise e →
  (∃ msg, e = ValueError msg) ∨ e = OSError OpRead.
Proof.
  induction names as [|filename names IH]; intros idx s e H; [done|].
  simpl in H.
  apply result_bind_Raise in H as [H%reading_Raise | (img & _ & H)]; [by right|].
  apply result_bind_Raise in H as [H | (s1 & _ & H)]; [|by eapply IH].
  destruct (idx =? 0); [done|]. case_decide; [done|].
  injection H as <-. left. eauto.
Qed.

(** Loading raises the converter's own [ValueError]s, a read error, or
    what the library raises when it draws or resizes. *)
Lemma load_Raise (W : World Image) (args : Args) (e : Exception) :
  load W args = Raise e →
  (∃ msg, e = ValueError msg) ∨ e = OSError OpRead ∨ e = LibraryError.
Proof.
  unfold load. destruct (String.eqb _ "test").
  { intros H. apply result_bind_Raise in H as [H | (? & _ & H)]; [|done].
    unfold generate_test_pattern in H.
    apply mapM_Raise in H as (i & _ & H%calling_Raise). auto. }
  destruct (endswith _ ".gif").
  - unfold load_from_gif. intros H.
    apply result_bind_Raise in H as [H%reading_Raise | (gif & _ & H)]; [by auto|].
    apply result_bind_Raise in H as [H | (? & _ & H)]; [|done].
    apply mapM_Raise in H as (frame & _ & H).
    destruct (truthy _ && truthy _); [|done].
    apply calling_Raise in H. auto.
  - unfold load_from_folder. intros H.
    apply result_bind_Raise in H as [H%reading_Raise | (names & _ & H)]; [by auto|].
    destruct (image_files names) eqn:Hfiles.
    + injection H as <-. left. eauto.
    + apply load_frames_Raise in H as [H | H]; auto.
Qed.

Lemma chunks_all_Ok s (hdr : list byte) (rows : list (list byte)) :
  pack_header s = Ok hdr →
  mapM pack_BBBB (palette s) = Ok rows →
  chunks s = Ok <$> (hdr :: rows ++ (Image_tobytes <$> frames s)).
Proof.
  intros Hhdr Hrows. unfold chunks.
  rewrite Hhdr, (mapM_Ok_fmap _ _ _ Hrows).
  by rewrite fmap_cons, fmap_app, <- list_fmap_compose.
Qed.

(** A stream of packed chunks can only stop for lack of room, and the
    file then holds, after what it held, the first bytes of the stream, as
    many as there was room for. *)
Lemma write_chunks_refused (f : string) (bss : list (list byte)) :
  ∀ (d : Disk) (c : list byte) (e : Exception),
  files d !! f = Some c →
  (write_chunks f (Ok <$> bss) d).2 = Raise e →
  e = OSError OpWrite ∧
  free d < length (concat bss) ∧
  files (write_chunks f (Ok <$> bss) d).1
  = <[f := c ++ take (free d) (concat bss)]> (files d).
Proof.
  induction bss as [|bs bss IH]; intros d c e Hc; [done|].
  rewrite fmap_cons, write_chunks_cons. simpl concat. rewrite length_app.
  destruct (length bs <=? free d) eqn:Hfit.
  - apply Nat.leb_le in Hfit. rewrite Hc. simpl default.
    set (d1 := mkDisk _ _ _). intros Hraise.
    destruct (IH d1 (c ++ bs) e) as (-> & Hroom & Hfiles); [|done|].
    { apply lookup_insert_eq. }
    rewrite Hfiles. simpl in *.
    rewrite insert_insert_eq, <- app_assoc, take_app_ge by done.
    split_and!; [done | lia | done].
  - apply Nat.leb_gt in Hfit. rewrite Hc. intros [= <-]. simpl.
    rewrite take_app_le by lia. split_and!; [done | lia | done].
Qed.

(** C9, as the code has it.  A run that raises while loading or
    quantizing, or because the output path cannot be opened, leaves the
    disk as it was.  A run that raises after the path was opened leaves a
    file at the output path, and what was there before is lost: the file is
    empty when a header field does not fit ([struct.error]), and it holds
    the first bytes of the container, as many as the medium had room for,
    when a write is refused ([OSError]).  Nothing removes the file, and
    nothing is written to a temporary path first. *)
Theorem failed_run_and_output_path (W : World Image) (argv : Argv)
    (d d' : Disk) (e : Exception) :
  main W argv d = (d', Raise e) →
  match e with
  | StructError => files d' = <[argv_output argv := []]> (files d)
  | OSError OpWrite =>
      ∃ s s' hdr rows,
        load W (parse_args argv) = Ok s ∧ generate_palette s = Ok s' ∧
        pack_header s' = Ok hdr ∧ mapM pack_BBBB (palette s') = Ok rows ∧
        free d + length (default [] (files d !! argv_output argv))
          < length (hdr ++ concat rows ++ concat (Image_tobytes <$> frames s')) ∧
        files d'
        = <[argv_output argv :=
              take (free d + length (default [] (files d !! argv_output argv)))
                   (hdr ++ concat rows ++ concat (Image_tobytes <$> frames s'))]>
          (files d)
  | _ => d' = d
  end.
Proof.
  rewrite main_run. intros Hmain.
  destruct (load W (parse_args argv)) as [s|e0] eqn:Hload; cycle 1.
  { injection Hmain as <- <-.
    by apply load_Raise in Hload as [[msg ->] | [-> | ->]]. }
  destruct (generate_palette s) as [s'|e1] eqn:Hgp; cycle 1.
  { injection Hmain as <- <-. by apply generate_palette_Raise in Hgp as [-> _]. }
  pose proof Hgp as (Hpal & _)%generate_palette_Ok.
  destruct (palette_loop _ _ _ Hpal) as [_ Hrows].
  remember (_ <$> seq 0 256) as rows eqn:Erows. clear Erows.
  rewrite write_sprite_as_chunks, IO_bind_unfold in Hmain. unfold open_wb in Hmain.
  destruct (decide (argv_output argv ∈ readonly d)) as [Hro|Hro].
  { by injection Hmain as <- <-. }
  set (d1 := mkDisk _ _ _) in Hmain.
  destruct (pack_header s') as [hdr|e0] eqn:Hhdr.
  - rewrite (chunks_all_Ok _ _ _ Hhdr Hrows) in Hmain.
    destruct (write_chunks_refused (argv_output argv)
                (hdr :: rows ++ (Image_tobytes <$> frames s')) d1 [] e)
      as (-> & Hroom & Hfiles).
    { apply lookup_insert_eq. }
    { by rewrite Hmain. }
    rewrite Hmain in Hfiles. simpl in Hroom, Hfiles.
    rewrite concat_app in Hroom, Hfiles. rewrite insert_insert_eq in Hfiles.
    exists s, s', hdr, rows. by split_and!.
  - pose proof (pack_header_Raise _ _ Hhdr) as ->.
    unfold chunks in Hmain. rewrite Hhdr, write_chunks_cons in Hmain.
    by injection Hmain as <- <-.
Qed.

(** C10, as the code has it.  On a GIF input that loads, the frame rate
    of the converter after loading is [1000 / duration], truncated, exactly
    when the requested rate is 30 (asked for or defaulted: the two cannot
    be told apart) and the GIF's frame time is not zero; with a zero frame
    time, or any other requested rate, it is the requested rate. *)
Theorem gif_rate_and_requested_fps (W : World Image) (argv : Argv)
    (gif : Gif Image) (s' : SpriteConverter Image) :
  String.eqb (lower (argv_input argv)) "test" = false →
  endswith (lower (argv_input argv)) ".gif" = true →
  Gif_open W (argv_input argv) = Some gif →
  load W (parse_args argv) = Ok s' →
  fps s' =
    if (default 30 (opt_fps argv) =? 30)%Z
       && negb (default 100 (gif_duration gif) =? 0)%Z
    then Z.quot 1000 (default 100%Z (gif_duration gif))
    else default 30%Z (opt_fps argv).
Proof.
  intros Htest Hgif Hopen. unfold load. simpl. rewrite Htest, Hgif.
  unfold load_from_gif. rewrite Hopen. simpl. intros H.
  apply result_bind_Ok in H as (extracted & _ & [= <-]).
  simpl. unfold fps_from_gif, gif_fps.
  destruct (default 100%Z (gif_duration gif) =? 0)%Z;
    destruct (truthy _ && truthy _); simpl;
    destruct (default 30%Z (opt_fps argv) =? 30)%Z eqn:Hreq; simpl;
    rewrite ?Hreq; done.
Qed.

End Failure.

(** * The properties on concrete runs *)

(** Three 4x4 black frames at 10 frames per second: 1136 bytes, with the
    frame count 3 in bytes 6-7. *)
Lemma container_layout_witness :
  load demo_world (parse_args demo_argv) = Ok demo_loaded ∧
  ∃ out, files (main demo_world demo_argv (empty_disk 5000)).1 !! "out.spr"
         = Some out ∧
         length out = 1136 ∧ take 2 (drop 6 out) = [x03; x00].
Proof.
  split; [reflexivity|].
  destruct (container_layout demo_world demo_argv (empty_disk 5000)
              (main demo_world demo_argv (empty_disk 5000)).1 demo_loaded)
    as (hdr & pal & out & Hout & _ & _ & _ & _ & _ & _ & Hthree).
  - reflexivity.
  - vm_compute. reflexivity.
  - repeat (constructor; [reflexivity|]). constructor.
  - exists out. split; [exact Hout|]. by apply Hthree.
Defined.

Lemma magic_then_version_witness :
  ∃ rest, files (write_sprite demo_converter "out.spr" (empty_disk 5000)).1
          !! "out.spr" = Some ([x49; x4b; x4f; x44] ++ [x01; x00] ++ rest).
Proof.
  apply (magic_then_version demo_converter "out.spr" (empty_disk 5000)).
  vm_compute. reflexivity.
Defined.

Lemma palette_has_256_opaque_entries_witness :
  ∃ s', generate_palette demo_loaded = Ok s' ∧ length (palette s') = 256.
Proof.
  destruct (palette_has_256_opaque_entries demo_loaded)
    as (s' & Hgp & Hlen & _).
  - vm_compute. apply le_n.
  - exists s'. split; [exact Hgp | exact Hlen].
Defined.

Lemma validator_checks_magic_witness :
  validate_spr_file demo_upload "good.spr" = true ∧
  validate_spr_file demo_upload "zero.spr" = false ∧
  validate_spr_file demo_upload "tiny.spr" = false.
Proof.
  split_and!.
  - by apply (validator_checks_magic demo_upload "good.spr" [x49; x4b; x4f; x44] eq_refl).
  - by apply (validator_checks_magic demo_upload "zero.spr" [x00; x00; x00; x00] eq_refl).
  - apply (proj1 (validator_checks_magic demo_upload "tiny.spr" [x49; x4b] eq_refl)).
    left. simpl. lia.
Defined.

(** The folder [mixed]: [a.png] is 4x4, [b.png] is 8x4. *)
Lemma different_size_is_rejected_witness :
  ∃ idx sz,
    main demo_world (run "mixed" "out.spr" None) (empty_disk 5000)
    = (empty_disk 5000, Raise (ValueError (DifferentSize idx sz))).
Proof.
  destruct (different_size_is_rejected demo_world (run "mixed" "out.spr" None)
              (empty_disk 5000) ["b.png"; "a.png"]
              [black true (4, 4)%Z []; black true (8, 4)%Z []])
    as (idx & frame & first & _ & _ & _ & _ & _ & Hmain);
    [reflexivity | reflexivity | reflexivity | reflexivity | |].
  - exists 1, (black true (8, 4)%Z []), (black true (4, 4)%Z []).
    split_and!; [reflexivity | reflexivity | by intros [=]].
  - exists idx, (Image_size frame). exact Hmain.
Defined.

(** [test out.spr --frames 0]: a container without frames is written. *)
Lemma empty_test_pattern_is_converted_witness :
  (main demo_world no_frames_argv (empty_disk 5000)).2 = Ok tt ∧
  ∃ out, files (main demo_world no_frames_argv (empty_disk 5000)).1 !! "out.spr"
         = Some out ∧ length out = 1088 ∧ take 2 (drop 6 out) = [x00; x00].
Proof.
  destruct (empty_test_pattern_is_converted demo_world no_frames_argv
              (empty_disk 5000) (mkConverter [] 64 64 30 0 0 []))
    as (_ & _ & Hwritten); [reflexivity | done | reflexivity |].
  destruct Hwritten as (out & Hok & Hout & Hlen & Hcount);
    [vm_compute; apply le_n | done | done | done | set_solver | simpl; lia |].
  split; [exact Hok|]. exists out. split_and!; assumption.
Defined.

(** A medium with room for 100 bytes: the write of the tenth palette entry
    is refused, and the 100 bytes written so far stay at the output path. *)
Lemma write_error_leaves_partial_file :
  (main demo_world demo_argv (empty_disk 100)).2 = Raise (OSError OpWrite) ∧
  length <$> files (main demo_world demo_argv (empty_disk 100)).1 !! "out.spr"
  = Some 100 ∧
  ¬ leaves_no_output demo_world demo_argv (empty_disk 100).
Proof.
  split_and!; [by vm_compute..|].
  intros Hnone.
  specialize (Hnone (main demo_world demo_argv (empty_disk 100)).1
                    (OSError OpWrite)).
  assert (Hrun : main demo_world demo_argv (empty_disk 100)
                 = ((main demo_world demo_argv (empty_disk 100)).1,
                    Raise (OSError OpWrite))) by by vm_compute.
  apply Hnone in Hrun. vm_compute in Hrun. discriminate.
Qed.

Lemma failed_run_and_output_path_witness :
  ∃ partial : list byte,
    files (main demo_world demo_argv (empty_disk 100)).1 !! "out.spr"
    = Some partial ∧ length partial = 100.
Proof.
  destruct (failed_run_and_output_path demo_world demo_argv (empty_disk 100)
              (main demo_world demo_argv (empty_disk 100)).1 (OSError OpWrite))
    as (s & s' & hdr & rows & _ & _ & _ & _ & Hroom & Hfiles).
  - vm_compute. reflexivity.
  - eexists. rewrite Hfiles, lookup_insert_eq. split; [reflexivity|].
    rewrite length_take.
    change (free (empty_disk 100)
            + length (default [] (files (empty_disk 100) !! argv_output demo_argv)))
      with 100 in *.
    lia.
Defined.

(** With a library that trims the palette table, the same run without
    frames stops in the palette loop, on [palette_data[0]]: no
    [ValueError] here either, and no file. *)
Lemma empty_test_pattern_with_trimmed_table :
  @main Bitmap trimmed_lib demo_world no_frames_argv (empty_disk 5000)
  = (empty_disk 5000, Raise IndexError).
Proof. by vm_compute. Qed.

(** [uneven.gif]: the second frame is 8x4 where the first is 4x4.  Nothing
    compares them, and a container that announces two frames of 4x4 is
    written. *)
Lemma uneven_gif_is_converted :
  load demo_world (parse_args uneven_argv) = Ok demo_uneven ∧
  Image_size <$> frames demo_uneven = [(4, 4)%Z; (8, 4)%Z] ∧
  (main demo_world uneven_argv (empty_disk 5000)).2 = Ok tt ∧
  (λ out, (length out, take 6 (drop 6 out)))
    <$> files (main demo_world uneven_argv (empty_disk 5000)).1 !! "out.spr"
  = Some (1136, [x02; x00; x04; x00; x04; x00]) ∧
  ¬ rejects_different_sizes demo_world uneven_argv (empty_disk 5000).
Proof.
  split_and!; [by vm_compute..|].
  intros Hrejects.
  destruct (Hrejects demo_uneven (black true (4, 4)%Z []) (black true (8, 4)%Z []))
    as (idx & sz & Hraise); [by vm_compute | reflexivity | | by intros [=] |].
  - right. left.
  - vm_compute in Hraise. discriminate.
Qed.

(** [still.gif] has a frame time of 0: the division raises, the [except]
    swallows it, and the 30 that was asked for stays. *)
Lemma zero_frame_time_keeps_requested_30 :
  fps_from_gif (set_fps (@init Bitmap) 30) (mkGif (4, 4)%Z (Some 0%Z) [])
  = set_fps init 30 ∧
  gif_fps 0 = None ∧
  ¬ asks_30_gets_gif_rate demo_world (run "still.gif" "out.spr" (Some 30%Z)).
Proof.
  split_and!; [reflexivity..|].
  intros Hrate.
  specialize (Hrate eq_refl _ _ eq_refl eq_refl). discriminate.
Qed.

Lemma gif_rate_and_requested_fps_witness :
  load demo_world (parse_args (run "anim.gif" "out.spr" (Some 30%Z)))
  = Ok demo_gif_loaded ∧
  fps demo_gif_loaded = 20%Z.
Proof.
  split; [reflexivity|].
  apply (gif_rate_and_requested_fps demo_world (run "anim.gif" "out.spr" (Some 30%Z))
           (mkGif (4, 4)%Z (Some 50%Z)
                  [black false (4, 4)%Z []; black false (4, 4)%Z []])
           demo_gif_loaded);
    reflexivity.
Defined.

(** * More of the converter *)

(** ** The order of the frames *)

Lemma insert_sorted_perm (x : string) (l : list string) :
  insert_sorted x l ≡ₚ x :: l.
Proof.
  induction l as [|y l IH]; simpl; [done|].
  destruct (String.leb x y); [done|]. rewrite IH. apply Permutation_swap.
Qed.

Lemma sorted_perm (l : list string) : sorted l ≡ₚ l.
Proof.
  induction l as [|x l IH]; simpl; [done|].
  by rewrite insert_sorted_perm, IH.
Qed.

Lemma insert_sorted_Sorted (x : string) (l : list string) :
  Sorted (λ a b, String.leb a b = true) l →
  Sorted (λ a b, String.leb a b = true) (insert_sorted x l).
Proof.
  induction 1 as [|y l Hl IH Hy]; simpl.
  - by repeat constructor.
  - destruct (String.leb x y) eqn:Hxy.
    + constructor; [by constructor | by constructor].
    + assert (Hyx : String.leb y x = true).
      { by destruct (String.leb_total x y) as [Hle | Hle]; [congruence|]. }
      constructor; [done|].
      destruct Hy as [|z l' Hyz]; simpl; [by constructor|].
      destruct (String.leb x z); by constructor.
Qed.

(** [load_from_folder] takes the frames in ascending order of their file
    names (compared character by character), and takes exactly the names
    that end, whatever the case of their letters, in one of the four image
    suffixes. *)
Theorem image_files_sorted_selection (names : list string) :
  Sorted (λ a b, String.leb a b = true) (image_files names) ∧
  image_files names
    ≡ₚ filter (λ f, endswith_any (lower f) image_suffixes = true) names ∧
  ∀ f, f ∈ image_files names ↔
       f ∈ names ∧ ∃ suffix, suffix ∈ [".png"; ".jpg"; ".jpeg"; ".bmp"] ∧
                             endswith (lower f) suffix = true.
Proof.
  split_and!.
  - unfold image_files, sorted.
    induction (filter _ names) as [|x l IH]; simpl; [constructor|].
    by apply insert_sorted_Sorted.
  - apply sorted_perm.
  - intros f. unfold image_files. rewrite sorted_perm, list_elem_of_filter.
    unfold endswith_any. rewrite existsb_exists.
    setoid_rewrite <- list_elem_of_In. unfold image_suffixes. tauto.
Qed.

(** ** [_calculate_frame_offsets] *)

Lemma frame_offsets_loop_closed {Image} (frame_size : Z) (fs : list Image) :
  ∀ current_offset,
  frame_offsets_loop frame_size current_offset fs
  = (λ n : nat, current_offset + Z.of_nat n * frame_size)%Z <$> seq 0 (length fs).
Proof.
  induction fs as [|frame fs IH]; intros current_offset; [done|].
  simpl. rewrite IH, <- fmap_S_seq, <- list_fmap_compose. f_equal; [lia|].
  apply list_fmap_ext. intros _ n _. simpl. lia.
Qed.

(** The helper is not called by [write_sprite], and its offsets are not
    those of the file: it places frame [n] at
    [1088 + 4 * N + n * width * height], as if a table of [N] 32-bit
    offsets stood between the palette and the frames, [4 * N] bytes past
    the place at which [write_sprite] starts that frame. *)
Theorem frame_offsets_assume_a_table {Image} (s : SpriteConverter Image) :
  _calculate_frame_offsets s
  = (λ n : nat, 1088 + 4 * Z.of_nat (length (frames s))
                + Z.of_nat n * (width s * height s))%Z
    <$> seq 0 (length (frames s)) ∧
  ∀ (n : nat) (offset : Z),
    _calculate_frame_offsets s !! n = Some offset →
    (offset - (1088 + Z.of_nat n * (width s * height s))
     = 4 * Z.of_nat (length (frames s)))%Z ∧
    (0 < 4 * Z.of_nat (length (frames s)))%Z.
Proof.
  assert (Hclosed : _calculate_frame_offsets s
    = (λ n : nat, 1088 + 4 * Z.of_nat (length (frames s))
                  + Z.of_nat n * (width s * height s))%Z
      <$> seq 0 (length (frames s))).
  { unfold _calculate_frame_offsets. rewrite frame_offsets_loop_closed.
    apply list_fmap_ext. intros _ n _. lia. }
  split; [done|]. intros n offset. rewrite Hclosed, list_lookup_fmap.
  intros Hn. destruct (seq 0 (length (frames s)) !! n) as [m|] eqn:Hm; [|done].
  apply lookup_seq in Hm as [-> Hlt]. injection Hn as <-. lia.
Qed.

(** ** Reading the header back *)

Lemma Z_of_byte_of_Z (x : Z) :
  (0 ≤ x < 256)%Z → Z_of_byte (byte_of_Z x) = x.
Proof.
  intros Hx. unfold Z_of_byte, byte_of_Z.
  destruct (Byte.of_N (Z.to_N x)) as [b|] eqn:Hb.
  - apply Byte.to_of_N in Hb. rewrite Hb. lia.
  - apply Byte.of_N_None_iff in Hb. lia.
Qed.

Lemma le_bytes_S (n : nat) (v : Z) :
  le_bytes (S n) v = byte_of_Z (Z.land v 255) :: le_bytes n (Z.shiftr v 8).
Proof.
  unfold le_bytes. rewrite <- cons_seq, fmap_cons, <- fmap_S_seq, <- list_fmap_compose.
  f_equal.
  apply list_fmap_ext. intros _ i _. simpl.
  rewrite Z.shiftr_shiftr by lia. do 3 f_equal. lia.
Qed.

(** Packing an unsigned field and reading it back. *)
Lemma uint_of_le_bytes (n : nat) :
  ∀ v, (0 ≤ v < 2 ^ (8 * Z.of_nat n))%Z → uint_of_le (le_bytes n v) = v.
Proof.
  induction n as [|n IH]; intros v Hv.
  - simpl in *. lia.
  - rewrite le_bytes_S. simpl. change 255%Z with (Z.ones 8).
    rewrite Z.land_ones, Z.shiftr_div_pow2 by lia.
    fold (uint_of_le (le_bytes n (v `div` 2 ^ 8))).
    rewrite Z_of_byte_of_Z by (apply Z.mod_pos_bound; lia).
    rewrite IH.
    + pose proof (Z.div_mod v (2 ^ 8)). lia.
    + split; [apply Z.div_pos; lia|].
      apply Z.div_lt_upper_bound; [lia|].
      replace (8 * Z.of_nat (S n))%Z with (8 + 8 * Z.of_nat n)%Z in Hv by lia.
      rewrite Z.pow_add_r in Hv by lia. lia.
Qed.

Section HeaderFields.
Context {Image : Type} `{!ImageLib Image}.
Implicit Types s : SpriteConverter Image.

Lemma pack_header_ranges s (hdr : list byte) :
  pack_header s = Ok hdr → header_in_range s.
Proof.
  unfold pack_header, pack_I, pack_H, pack_B, header_in_range. intros H. bind_inv.
  repeat match goal with
  | Hp : pack_uint _ _ = Ok _ |- _ => apply pack_uint_Ok in Hp as [_ ?]
  end.
  simpl in *. lia.
Qed.

Lemma pack_header_out_of_range s :
  ¬ header_in_range s → pack_header s = Raise StructError.
Proof.
  intros Hout. destruct (pack_header s) as [hdr|e] eqn:Hhdr.
  - by apply pack_header_ranges in Hhdr.
  - by apply pack_header_Raise in Hhdr as ->.
Qed.

(** [_write_header] packs the header exactly when the frame count, the
    width and the height fit 16 bits and the frame rate and the two format
    codes fit 8 bits; otherwise [struct.pack] raises [struct.error]. *)
Theorem header_packs_iff_in_range s :
  ((∃ hdr, pack_header s = Ok hdr) ↔ header_in_range s) ∧
  (pack_header s = Raise StructError ↔ ¬ header_in_range s).
Proof.
  split; split.
  - intros [hdr Hhdr]. by eapply pack_header_ranges.
  - intros (? & ? & ? & ? & ? & ?). by apply pack_header_in_range.
  - intros Hraise Hin. destruct Hin as (? & ? & ? & ? & ? & ?).
    destruct (pack_header_in_range s) as [hdr Hhdr]; [done..|congruence].
  - apply pack_header_out_of_range.
Qed.

(** When a header field is out of range, [write_sprite] has already
    created the output file (or emptied the one that was there, whose
    bytes are free again) and leaves it with no byte in it. *)
Theorem unpackable_header_leaves_empty_file s (output_path : string) (d : Disk) :
  ¬ header_in_range s →
  output_path ∉ readonly d →
  write_sprite s output_path d
  = (mkDisk (<[output_path := []]> (files d))
            (free d + length (default [] (files d !! output_path)))
            (readonly d),
     Raise StructError).
Proof.
  intros Hout Hro.
  rewrite write_sprite_as_chunks, IO_bind_unfold. unfold open_wb.
  rewrite decide_False by done.
  unfold chunks. by rewrite write_chunks_cons, pack_header_out_of_range.
Qed.

(** The header of a container [write_sprite] completes, read back field
    by field: magic and version, then frame count, width, height (16 bits,
    low byte first), frame rate, colour format, compression (one byte
    each), then 49 zero bytes up to offset 64. *)
Theorem header_read_back s (output_path : string) (d d' : Disk) :
  write_sprite s output_path d = (d', Ok tt) →
  ∃ out, files d' !! output_path = Some out ∧
    uint_of_le (take 4 out) = SPRITE_MAGIC ∧
    uint_of_le (take 2 (drop 4 out)) = 1%Z ∧
    uint_of_le (take 2 (drop 6 out)) = Z.of_nat (length (frames s)) ∧
    uint_of_le (take 2 (drop 8 out)) = width s ∧
    uint_of_le (take 2 (drop 10 out)) = height s ∧
    uint_of_le (take 1 (drop 12 out)) = fps s ∧
    uint_of_le (take 1 (drop 13 out)) = color_format s ∧
    uint_of_le (take 1 (drop 14 out)) = compression s ∧
    take 49 (drop 15 out) = replicate 49 x00.
Proof.
  intros (hdr & rows & Hhdr & _ & Hfiles)%write_sprite_Ok.
  pose proof (pack_header_ranges _ _ Hhdr) as (HN & Hw & Hh & Hfps & Hcf & Hcomp).
  apply pack_header_Ok in Hhdr as (-> & _).
  eexists. rewrite Hfiles, lookup_insert_eq. split; [done|].
  split_and!; try reflexivity.
  - change (uint_of_le (le_bytes 2 (Z.of_nat (length (frames s))))
            = Z.of_nat (length (frames s))).
    apply uint_of_le_bytes. simpl. lia.
  - change (uint_of_le (le_bytes 2 (width s)) = width s).
    by apply uint_of_le_bytes.
  - change (uint_of_le (le_bytes 2 (height s)) = height s).
    by apply uint_of_le_bytes.
  - change (uint_of_le (le_bytes 1 (fps s)) = fps s).
    by apply uint_of_le_bytes.
  - change (uint_of_le (le_bytes 1 (color_format s)) = color_format s).
    by apply uint_of_le_bytes.
  - change (uint_of_le (le_bytes 1 (compression s)) = compression s).
    by apply uint_of_le_bytes.
Qed.

End HeaderFields.

(** ** What a run does to the disk *)

Section Effects.
Context {Image : Type} `{!ImageLib Image}.
Implicit Types s : SpriteConverter Image.

(** [generate_palette] ends well exactly when the table the library
    returns for the quantized picture holds at least 768 values; on a
    shorter table the palette loop raises [IndexError]. *)
Theorem palette_needs_768_values s :
  ((∃ s', generate_palette s = Ok s')
   ↔ 768 ≤ length (Image_getpalette (quantized s))) ∧
  (generate_palette s = Raise IndexError
   ↔ length (Image_getpalette (quantized s)) < 768).
Proof.
  split; split.
  - intros [s' Hgp].
    destruct (decide (768 ≤ length (Image_getpalette (quantized s)))); [done|].
    rewrite generate_palette_short_table in Hgp by lia. discriminate.
  - apply generate_palette_full_table.
  - by intros [_ ?]%generate_palette_Raise.
  - apply generate_palette_short_table.
Qed.

Lemma write_sprite_effect s (output_path : string) (d : Disk) :
  (∀ p, p ≠ output_path →
        files (write_sprite s output_path d).1 !! p = files d !! p) ∧
  readonly (write_sprite s output_path d).1 = readonly d.
Proof.
  destruct (write_sprite_run s output_path d)
    as [[_ ->] | (_ & written & Hfiles & Hro & _)]; [done|].
  rewrite Hfiles, Hro. split; [|done].
  intros p Hp. by rewrite lookup_insert_ne.
Qed.

(** A run of the converter, however it ends, changes no file but the one
    at the output path and makes no path read-only or writable. *)
Theorem main_touches_only_output (W : World Image) (argv : Argv) (d : Disk) :
  (∀ p, p ≠ argv_output argv →
        files (main W argv d).1 !! p = files d !! p) ∧
  readonly (main W argv d).1 = readonly d.
Proof.
  rewrite main_run.
  destruct (load W (parse_args argv)) as [s|e]; [|done].
  destruct (generate_palette s) as [s'|e]; [|done].
  apply write_sprite_effect.
Qed.

(** When the header and the palette pack, [write_sprite] can only fail
    for lack of room: the medium, with the bytes of the file it replaces
    free again, holds less than the container.  What it leaves at the
    output path is then the container cut at the byte where the room ran
    out, which may be in the middle of the header, of a palette entry or
    of a frame. *)
Theorem failed_write_leaves_a_prefix s (output_path : string) (d d' : Disk)
    (e : Exception) (hdr : list byte) (rows : list (list byte)) :
  pack_header s = Ok hdr →
  mapM pack_BBBB (palette s) = Ok rows →
  output_path ∉ readonly d →
  write_sprite s output_path d = (d', Raise e) →
  e = OSError OpWrite ∧
  free d + length (default [] (files d !! output_path))
    < length (hdr ++ concat rows ++ concat (Image_tobytes <$> frames s)) ∧
  files d'
  = <[output_path :=
        take (free d + length (default [] (files d !! output_path)))
             (hdr ++ concat rows ++ concat (Image_tobytes <$> frames s))]>
    (files d).
Proof.
  intros Hhdr Hrows Hro Hw.
  rewrite write_sprite_as_chunks, IO_bind_unfold in Hw. unfold open_wb in Hw.
  rewrite decide_False in Hw by done.
  rewrite (chunks_all_Ok _ _ _ Hhdr Hrows) in Hw.
  set (bss := hdr :: rows ++ (Image_tobytes <$> frames s)) in *.
  set (d1 := mkDisk _ _ _) in *.
  destruct (write_chunks_refused output_path bss d1 [] e)
    as (-> & Hroom & Hfiles).
  { apply lookup_insert_eq. }
  { by rewrite Hw. }
  rewrite Hw in Hfiles. simpl in Hfiles, Hroom.
  rewrite concat_app, insert_insert_eq in Hfiles. rewrite concat_app in Hroom.
  done.
Qed.

(** A container [write_sprite] completes passes [validate_spr_file]
    exactly when it is no larger than 1 MiB: the magic check always
    succeeds on it. *)
Theorem written_container_validates s (output_path : string) (d d' : Disk) :
  write_sprite s output_path d = (d', Ok tt) →
  ∃ out, files d' !! output_path = Some out ∧
         take 4 out = expected_magic ∧
         (validate_spr_file d' output_path = true
          ↔ (Z.of_nat (length out) ≤ 1024 * 1024)%Z).
Proof.
  intros (hdr & rows & Hhdr & _ & Hfiles)%write_sprite_Ok.
  apply pack_header_Ok in Hhdr as (-> & _).
  eexists. rewrite Hfiles, lookup_insert_eq. split_and!; [done..|].
  rewrite validate_spr_file_true, Hfiles, lookup_insert_eq. split.
  - by intros (out & [= <-] & _ & Hsize).
  - intros Hsize. eexists. by split_and!.
Qed.

End Effects.

(** ** What loading yields *)

Section Loaded.
Context {Image : Type} `{!ImageLib Image}.
Implicit Types s : SpriteConverter Image.

Lemma mapM_cons_Ok {A B} (f : A → result B) (x : A) (l : list A) (ys : list B) :
  mapM f (x :: l) = Ok ys ↔ ∃ y ys', f x = Ok y ∧ mapM f l = Ok ys' ∧ ys = y :: ys'.
Proof.
  rewrite mapM_cons. split.
  - intros H. apply result_bind_Ok in H as (y & Hy & H).
    apply result_bind_Ok in H as (ys' & Hys' & [= <-]). eauto.
  - intros (y & ys' & -> & Hys' & ->). simpl. by rewrite Hys'.
Qed.

Lemma set_frames_same s : set_frames s (frames s) = s.
Proof. by destruct s. Qed.

(** Past the first frame, the loop ends well exactly when every file
    opens and every frame has the recorded size; it then appends the
    frames, converted to RGB, in the order of the names. *)
Lemma load_frames_Ok (W : World Image) (folder_path : string) (names : list string) :
  ∀ (idx : nat) s s', idx ≠ 0 →
  load_frames W folder_path idx names s = Ok s' ↔
  ∃ imgs,
    mapM (λ filename, reading (Image_open W (path_join folder_path filename)))
         names = Ok imgs ∧
    Forall (λ img, Image_size (to_RGB img) = (width s, height s)) imgs ∧
    s' = set_frames s (frames s ++ (to_RGB <$> imgs)).
Proof.
  induction names as [|filename names IH]; intros idx s s' Hidx.
  - simpl. split.
    + intros [= <-]. exists []. by rewrite app_nil_r, set_frames_same.
    + intros (imgs & [= <-] & _ & ->). by rewrite app_nil_r, set_frames_same.
  - simpl load_frames. rewrite (proj2 (Nat.eqb_neq idx 0) Hidx). split.
    + intros H. apply result_bind_Ok in H as (img & Himg & H).
      destruct (decide (Image_size (to_RGB img) = (width s, height s)))
        as [Hsize|]; [|done].
      simpl in H. apply IH in H as (imgs & Himgs & Hall & ->); [|done].
      exists (img :: imgs). rewrite mapM_cons, Himg. simpl. rewrite Himgs.
      split_and!; [done | by constructor |].
      simpl. by rewrite <- app_assoc.
    + intros (imgs & Himgs & Hall & ->).
      apply mapM_cons_Ok in Himgs as (img & imgs' & Himg & Himgs' & ->).
      apply Forall_cons in Hall as [Hsize Hall].
      rewrite Himg. simpl. rewrite decide_True by done. simpl.
      apply IH; [done|]. exists imgs'. split_and!; [done..|].
      simpl. by rewrite <- app_assoc.
Qed.

(** [load_from_folder] ends well exactly when the folder can be listed,
    holds at least one image file, every image file opens and every frame
    has the size of the first one.  The converter then holds the frames,
    converted to RGB, in the order of the sorted names, after the frames it
    held before, and the size of the first frame; nothing else of it has
    changed. *)
Theorem load_from_folder_Ok_iff (W : World Image) s (folder_path : string) s' :
  load_from_folder W s folder_path = Ok s' ↔
  ∃ names first rest,
    listdir W folder_path = Some names ∧
    mapM (λ filename, reading (Image_open W (path_join folder_path filename)))
         (image_files names) = Ok (first :: rest) ∧
    Forall (λ img, Image_size (to_RGB img) = Image_size (to_RGB first)) rest ∧
    s' = mkConverter (frames s ++ (to_RGB <$> first :: rest))
           (Image_size (to_RGB first)).1 (Image_size (to_RGB first)).2
           (fps s) (color_format s) (compression s) (palette s).
Proof.
  unfold load_from_folder. split.
  - intros H. apply result_bind_Ok in H as (names & Hnames & H).
    destruct (listdir W folder_path) as [names'|]; [|done].
    injection Hnames as ->. exists names.
    destruct (image_files names) as [|filename files]; [done|].
    simpl in H. apply result_bind_Ok in H as (first & Hfirst & H).
    simpl in H. apply load_frames_Ok in H as (rest & Hrest & Hall & ->); [|done].
    exists first, rest. rewrite mapM_cons, Hfirst. simpl. rewrite Hrest.
    split_and!; [done..| |].
    + eapply Forall_impl; [done|]. simpl. intros img ->.
      by destruct (Image_size (to_RGB first)).
    + unfold set_frames, set_size. simpl. by rewrite <- app_assoc.
  - intros (names & first & rest & -> & Hopen & Hall & ->). simpl.
    destruct (image_files names) as [|filename files]; [done|].
    apply mapM_cons_Ok in Hopen as (? & ? & Hfirst & Hrest & [= <- <-]).
    simpl. rewrite Hfirst. simpl. apply load_frames_Ok; [done|].
    exists rest. split_and!; [done| |].
    + eapply Forall_impl; [done|]. simpl. intros img ->.
      by destruct (Image_size (to_RGB first)).
    + unfold set_frames, set_size. simpl. by rewrite <- app_assoc.
Qed.

Lemma fps_from_gif_frames s (gif : Gif Image) :
  frames (fps_from_gif s gif) = frames s.
Proof.
  unfold fps_from_gif. destruct (gif_fps _); [|done]. by destruct (fps s =? 30)%Z.
Qed.

Lemma fps_from_gif_width s (gif : Gif Image) :
  width (fps_from_gif s gif) = width s.
Proof.
  unfold fps_from_gif. destruct (gif_fps _); [|done]. by destruct (fps s =? 30)%Z.
Qed.

Lemma fps_from_gif_height s (gif : Gif Image) :
  height (fps_from_gif s gif) = height s.
Proof.
  unfold fps_from_gif. destruct (gif_fps _); [|done]. by destruct (fps s =? 30)%Z.
Qed.

(** Without a resize request the frames of a GIF are taken as the
    library delivers them. *)
Lemma load_gif_as_is (W : World Image) (argv : Argv) (gif : Gif Image) :
  String.eqb (lower (argv_input argv)) "test" = false →
  endswith (lower (argv_input argv)) ".gif" = true →
  Gif_open W (argv_input argv) = Some gif →
  ¬ (args_width (parse_args argv) ≠ 64 ∧ args_width (parse_args argv) ≠ 0 ∧
     args_height (parse_args argv) ≠ 64 ∧ args_height (parse_args argv) ≠ 0)%Z →
  ∃ s', load W (parse_args argv) = Ok s' ∧
        (width s', height s') = gif_size gif ∧
        frames s' = to_RGB <$> gif_frames gif.
Proof.
  intros Htest Hgif Hopen Hno. unfold load. simpl. rewrite Htest, Hgif.
  unfold load_from_gif. rewrite Hopen. simpl. simpl in Hno.
  set (w := default 64%Z (opt_width argv)) in *.
  set (h := default 64%Z (opt_height argv)) in *.
  assert (Hkeep : truthy (if (w =? 64)%Z then None else Some w)
                  && truthy (if (h =? 64)%Z then None else Some h) = false).
  { destruct (Z.eqb_spec w 64), (Z.eqb_spec h 64); simpl; try done;
      destruct (Z.eqb_spec w 0), (Z.eqb_spec h 0); simpl; try done.
    by destruct Hno. }
  rewrite Hkeep, mapM_Ok. simpl. eexists. split; [done|]. simpl.
  rewrite !fps_from_gif_frames, !fps_from_gif_width, !fps_from_gif_height.
  simpl. by destruct (gif_size gif).
Qed.

(** C6.  The size check of [load_from_folder] has no counterpart on the
    GIF path, where nothing compares a frame's size with the first one's:
    no run on a GIF raises a [ValueError], and without a resize request
    the load ends well with the frames as the library delivers them,
    whatever their sizes, under the size of the GIF's screen. *)
Theorem gif_frames_are_not_compared (W : World Image) (argv : Argv)
    (gif : Gif Image) (d : Disk) :
  String.eqb (lower (argv_input argv)) "test" = false →
  endswith (lower (argv_input argv)) ".gif" = true →
  Gif_open W (argv_input argv) = Some gif →
  (∀ msg, (main W argv d).2 ≠ Raise (ValueError msg)) ∧
  (¬ (args_width (parse_args argv) ≠ 64 ∧ args_width (parse_args argv) ≠ 0 ∧
      args_height (parse_args argv) ≠ 64 ∧ args_height (parse_args argv) ≠ 0)%Z →
   ∃ s, load W (parse_args argv) = Ok s ∧
        (width s, height s) = gif_size gif ∧
        frames s = to_RGB <$> gif_frames gif).
Proof.
  intros Htest Hgif Hopen. split; [|by apply load_gif_as_is].
  intros msg. rewrite main_run.
  destruct (load W (parse_args argv)) as [s|e] eqn:Hload.
  - destruct (generate_palette s) as [s'|e] eqn:Hgp.
    + destruct (write_sprite_run s' (argv_output argv) d)
        as [[_ ->] | (_ & written & _ & _ & _ & Hres)]; [done|].
      destruct (write_sprite s' (argv_output argv) d).2; [done|].
      destruct Hres as [-> | ->]; done.
    + apply generate_palette_Raise in Hgp as [-> _]. done.
  - unfold load in Hload. simpl in Hload. rewrite Htest, Hgif in Hload.
    unfold load_from_gif in Hload. rewrite Hopen in Hload. simpl in Hload.
    apply result_bind_Raise in Hload as [H | (? & _ & H)]; [|done].
    apply mapM_Raise in H as (frame & _ & H).
    destruct (truthy _ && truthy _); [|done].
    apply calling_Raise in H as ->. done.
Qed.

(** On a GIF input the frames are resized only when [--width] and
    [--height] are both given and both differ from 64 and from 0.  The
    load then ends well exactly when the library resizes every frame: the
    converter records the requested size and holds the resized frames; a
    frame the library does not resize ends the load with the library's
    error.  In every other case, one of the two options alone included, the
    request is ignored: the load ends well, the frames are only converted
    to RGB and the converter records the size of the GIF. *)
Theorem gif_resize_needs_both_sizes (W : World Image) (argv : Argv)
    (gif : Gif Image) :
  String.eqb (lower (argv_input argv)) "test" = false →
  endswith (lower (argv_input argv)) ".gif" = true →
  Gif_open W (argv_input argv) = Some gif →
  ((args_width (parse_args argv) ≠ 64 ∧ args_width (parse_args argv) ≠ 0 ∧
    args_height (parse_args argv) ≠ 64 ∧ args_height (parse_args argv) ≠ 0)%Z →
   match mapM (λ frame, calling (Image_resize (to_RGB frame)
                 (args_width (parse_args argv), args_height (parse_args argv))))
              (gif_frames gif) with
   | Ok resized =>
       ∃ s', load W (parse_args argv) = Ok s' ∧
             (width s', height s')
             = (args_width (parse_args argv), args_height (parse_args argv)) ∧
             frames s' = resized
   | Raise e => e = LibraryError ∧ load W (parse_args argv) = Raise LibraryError
   end) ∧
  (¬ (args_width (parse_args argv) ≠ 64 ∧ args_width (parse_args argv) ≠ 0 ∧
      args_height (parse_args argv) ≠ 64 ∧ args_height (parse_args argv) ≠ 0)%Z →
   ∃ s', load W (parse_args argv) = Ok s' ∧
         (width s', height s') = gif_size gif ∧
         frames s' = to_RGB <$> gif_frames gif).
Proof.
  intros Htest Hgif Hopen. split; [|by apply load_gif_as_is].
  unfold load. simpl. rewrite Htest, Hgif.
  unfold load_from_gif. rewrite Hopen. simpl.
  set (w := default 64%Z (opt_width argv)).
  set (h := default 64%Z (opt_height argv)).
  intros (Hw & Hw0 & Hh & Hh0).
  rewrite (proj2 (Z.eqb_neq w 64) Hw), (proj2 (Z.eqb_neq h 64) Hh). simpl.
  rewrite (proj2 (Z.eqb_neq w 0) Hw0), (proj2 (Z.eqb_neq h 0) Hh0). simpl.
  destruct (mapM _ (gif_frames gif)) as [resized|e] eqn:Hresize; simpl.
  - eexists. split; [done|]. simpl.
    by rewrite !fps_from_gif_frames, !fps_from_gif_width, !fps_from_gif_height.
  - apply mapM_Raise in Hresize as (frame & _ & ->%calling_Raise). done.
Qed.

(** With the default rate and a GIF whose frame time is positive, the
    rate taken from the GIF is the whole number of frames that fit in a
    second: 0 when a frame lasts more than a second, and more than the
    header's rate byte can hold when a frame lasts less than 4 ms. *)
Theorem gif_rate_bounds s (gif : Gif Image) :
  fps s = 30%Z →
  (0 < default 100 (gif_duration gif))%Z →
  (fps (fps_from_gif s gif) * default 100 (gif_duration gif) ≤ 1000
   < (fps (fps_from_gif s gif) + 1) * default 100 (gif_duration gif))%Z ∧
  ((1000 < default 100 (gif_duration gif))%Z → fps (fps_from_gif s gif) = 0%Z) ∧
  ((fps (fps_from_gif s gif) < 256)%Z ↔ (4 ≤ default 100 (gif_duration gif))%Z).
Proof.
  intros Hfps Hpos. unfold fps_from_gif, gif_fps.
  set (duration := default 100%Z (gif_duration gif)) in *.
  rewrite (proj2 (Z.eqb_neq duration 0)) by lia.
  rewrite Hfps. simpl. rewrite Z.quot_div_nonneg by lia.
  pose proof (Z.mul_div_le 1000 duration Hpos).
  pose proof (Z.mul_succ_div_gt 1000 duration Hpos).
  split_and!; [lia | lia | |].
  - intros Hslow. apply Z.div_small. lia.
  - split.
    + intros Hrate. nia.
    + intros Hd. apply Z.div_lt_upper_bound; lia.
Qed.

End Loaded.

(** ** Runs that end well, in general *)

Section Totality.
Context {Image : Type} `{!ImageLib Image}.
Implicit Types s : SpriteConverter Image.

Lemma load_formats (W : World Image) (args : Args) s :
  load W args = Ok s → color_format s = 0%Z ∧ compression s = 0%Z.
Proof.
  unfold load. destruct (String.eqb _ "test").
  { intros H. by apply result_bind_Ok in H as (fs & _ & [= <-]). }
  destruct (endswith _ ".gif").
  - unfold load_from_gif. intros H.
    apply result_bind_Ok in H as (gif & _ & H).
    apply result_bind_Ok in H as (extracted & _ & [= <-]). simpl.
    unfold fps_from_gif. destruct (gif_fps _); [|by destruct (truthy _ && _)].
    by destruct (truthy _ && _); simpl; destruct (_ =? 30)%Z.
  - unfold load_from_folder. intros H.
    apply result_bind_Ok in H as (names & _ & H).
    destruct (image_files names) as [|filename files]; [done|].
    simpl in H. apply result_bind_Ok in H as (first & _ & H).
    simpl in H. by apply load_frames_Ok in H as (rest & _ & _ & ->).
Qed.

(** The conversion ends well whenever loading does, the library's table
    has its 768 values, the frame count, width, height and rate fit their
    header fields, the output path can be opened and the medium, with the
    bytes of the file the container replaces free again, has room for the
    container: the container is then at the output path, whole, and the
    room left is the room there was, less its size. *)
Theorem main_succeeds (W : World Image) (argv : Argv) (d : Disk) s :
  load W (parse_args argv) = Ok s →
  768 ≤ length (Image_getpalette (quantized s)) →
  (Z.of_nat (length (frames s)) < 65536)%Z →
  (0 ≤ width s < 65536)%Z → (0 ≤ height s < 65536)%Z → (0 ≤ fps s < 256)%Z →
  argv_output argv ∉ readonly d →
  1088 + length (concat ((λ frame, Image_tobytes
                            (Image_quantize_to frame (quantized s)))
                         <$> frames s))
    ≤ free d + length (default [] (files d !! argv_output argv)) →
  ∃ hdr pal,
    length hdr = 64 ∧ length pal = 1024 ∧
    main W argv d =
    (mkDisk (<[argv_output argv :=
                hdr ++ pal ++ concat ((λ frame, Image_tobytes
                                         (Image_quantize_to frame (quantized s)))
                                      <$> frames s)]> (files d))
            (free d + length (default [] (files d !! argv_output argv))
             - (1088 + length (concat ((λ frame, Image_tobytes
                                         (Image_quantize_to frame (quantized s)))
                                       <$> frames s))))
            (readonly d), Ok tt).
Proof.
  intros Hload Htable HN Hw Hh Hfps Hro Hfree.
  destruct (load_formats _ _ _ Hload) as [Hcf Hcomp].
  destruct (generate_palette_full_table s Htable) as [s' Hgp].
  rewrite main_run, Hload, Hgp.
  apply generate_palette_Ok in Hgp as (Hpal & Hfr & Hw' & Hh' & Hfps' & Hcf' & Hcomp').
  destruct (palette_loop _ _ _ Hpal) as [_ Hrows].
  assert (Hnrows : length ((λ i, take 3 (drop (i * 3)
            (Image_getpalette (quantized s))) ++ [xff]) <$> seq 0 256) = 256)
    by by rewrite length_fmap, length_seq.
  remember (_ <$> seq 0 256) as rows eqn:Erows. clear Erows.
  assert (∃ hdr, pack_header s' = Ok hdr) as [hdr Hhdr].
  { apply pack_header_in_range;
      rewrite ?Hfr, ?length_fmap, ?Hw', ?Hh', ?Hfps', ?Hcf', ?Hcomp', ?Hcf, ?Hcomp;
      first [assumption | lia]. }
  pose proof (pack_header_length _ _ Hhdr) as Hlhdr.
  pose proof (concat_uniform_length 4 _ (palette_rows_length _ _ Hrows)) as Hlrows.
  rewrite Hnrows in Hlrows.
  set (blocks := (λ frame, Image_tobytes (Image_quantize_to frame (quantized s)))
                   <$> frames s) in *.
  assert (Hblocks : Image_tobytes <$> frames s' = blocks).
  { subst blocks. by rewrite Hfr, <- list_fmap_compose. }
  assert (Hsize : length (hdr ++ concat rows ++ concat (Image_tobytes <$> frames s'))
                  = 1088 + length (concat blocks)).
  { rewrite Hblocks, !length_app, Hlhdr, Hlrows. lia. }
  exists hdr, (concat rows). split_and!; [done..|].
  erewrite write_sprite_fits; [|done..|lia].
  by rewrite Hsize, Hblocks.
Qed.

End Totality.

(** * The uploader *)

Lemma Path_name_no_slash (filepath : string) :
  has_slash (Path_name filepath) = false.
Proof.
  induction filepath as [|c rest IH]; [done|].
  change (Path_name (String c rest)) with
    (if has_slash (String c rest) then Path_name rest else String c rest).
  destruct (has_slash (String c rest)) eqn:Hslash; [exact IH | exact Hslash].
Qed.

Lemma upload_main_valid (net : Request → Outcome) (d : Disk)
    (prog esp32_ip filepath : string) (content : list byte) :
  files d !! filepath = Some content →
  validate_spr_file d filepath = true →
  (upload_main net d [prog; esp32_ip; filepath]).1
  = [mkRequest ("http://" +:+ esp32_ip +:+ "/api/animations/upload")
               (Path_name filepath) content 30].
Proof.
  intros Hc Hvalid. simpl. rewrite Hvalid. simpl.
  unfold upload_animation. rewrite Hc.
  destruct (net _) as [status_code json_parses| | |]; [|done..].
  by destruct (status_code =? 200)%Z.
Qed.

(** Called with a host and the path of a file that starts with the magic
    number and is at most 1 MiB, the uploader sends one request, whatever
    the device answers: to [/api/animations/upload] on that host, with the
    bytes of the file, under the file's name without its directories, with
    a timeout of 30 seconds.  In every other case (another number of
    arguments, a missing file, another magic number, a larger file) it
    sends nothing. *)
Theorem upload_sends_only_valid_files (net : Request → Outcome) (d : Disk)
    (argv : list string) :
  (∀ prog esp32_ip filepath content,
     argv = [prog; esp32_ip; filepath] →
     files d !! filepath = Some content →
     take 4 content = expected_magic →
     (Z.of_nat (length content) ≤ 1024 * 1024)%Z →
     has_slash (Path_name filepath) = false ∧
     (upload_main net d argv).1
     = [mkRequest ("http://" +:+ esp32_ip +:+ "/api/animations/upload")
                  (Path_name filepath) content 30]) ∧
  ((∀ prog esp32_ip filepath content,
      argv = [prog; esp32_ip; filepath] →
      files d !! filepath = Some content →
      ¬ (take 4 content = expected_magic ∧
         (Z.of_nat (length content) ≤ 1024 * 1024)%Z)) →
   (upload_main net d argv).1 = []).
Proof.
  split.
  - intros prog esp32_ip filepath content -> Hc Hmagic Hsize.
    split; [apply Path_name_no_slash|].
    apply upload_main_valid; [done|].
    apply validate_spr_file_true. by exists content.
  - intros Hinvalid.
    destruct argv as [|prog [|esp32_ip [|filepath [|? ?]]]]; try done.
    simpl. destruct (validate_spr_file d filepath) eqn:Hvalid; [|done].
    apply validate_spr_file_true in Hvalid as (content & Hc & Hmagic & Hsize).
    by destruct (Hinvalid prog esp32_ip filepath content).
Qed.

(** The uploader exits with 0 exactly when it sent its request and the
    device answered with status 200 and a body that parses as JSON; in every
    other case (wrong command line, rejected file, any other status, a body
    that does not parse, a timeout, no connection) it exits with 1. *)
Theorem upload_exit_code (net : Request → Outcome) (d : Disk)
    (argv : list string) :
  ((upload_main net d argv).2 = 0%Z ↔
   ∃ request, (upload_main net d argv).1 = [request] ∧
              net request = Response 200 true) ∧
  ((upload_main net d argv).2 = 0%Z ∨ (upload_main net d argv).2 = 1%Z).
Proof.
  destruct argv as [|prog [|esp32_ip [|filepath [|? ?]]]];
    try (split; [split; [done | by intros (? & ? & _)] | by right]).
  simpl. destruct (validate_spr_file d filepath) eqn:Hvalid; simpl;
    [|split; [split; [done | by intros (? & ? & _)] | by right]].
  apply validate_spr_file_true in Hvalid as (content & Hc & _).
  unfold upload_animation. rewrite Hc.
  destruct (net _) as [status_code json_parses| | |] eqn:Hnet; simpl;
    try (split; [split; [done | intros (? & [= <-] & ?); congruence] | by right]).
  destruct (Z.eqb_spec status_code 200) as [->|Hstatus]; simpl.
  - destruct json_parses; simpl.
    + split; [split; [eauto | done] | by left].
    + split; [split; [done | intros (? & [= <-] & ?); congruence] | by right].
  - split; [split; [done | intros (? & [= <-] & ?); congruence] | by right].
Qed.

(** * The further properties on concrete runs *)

(** [uneven.gif], whose second frame is 8x4 where the first is 4x4. *)
Lemma gif_frames_are_not_compared_witness :
  (main demo_world uneven_argv (empty_disk 5000)).2
    ≠ Raise (ValueError (DifferentSize 1 (8, 4)%Z)) ∧
  ∃ s, load demo_world (parse_args uneven_argv) = Ok s ∧
       Image_size <$> frames s = [(4, 4)%Z; (8, 4)%Z].
Proof.
  destruct (gif_frames_are_not_compared demo_world uneven_argv
              (mkGif (4, 4)%Z (Some 100%Z)
                     [black false (4, 4)%Z []; black false (8, 4)%Z []])
              (empty_disk 5000))
    as [Hnever Hload]; [reflexivity..|].
  split; [apply Hnever|].
  destruct Hload as (s & Hs & _ & Hframes).
  - intros (Hwidth & _). by apply Hwidth.
  - exists s. split; [exact Hs|]. rewrite Hframes. reflexivity.
Defined.

Lemma empty_folder_is_rejected_witness :
  main demo_world (run "empty" "out.spr" None) (empty_disk 5000)
  = (empty_disk 5000, Raise (ValueError (NoImageFiles "empty"))).
Proof.
  apply (empty_folder_is_rejected demo_world (run "empty" "out.spr" None)
           (empty_disk 5000) ["notes.txt"]); reflexivity.
Defined.

(** Three 4x4 frames: the helper puts the first frame at 1100, twelve
    bytes past 1088. *)
Lemma frame_offsets_assume_a_table_witness :
  _calculate_frame_offsets demo_converter !! 0 = Some 1100%Z ∧
  (1100 - (1088 + 0 * (4 * 4)) = 4 * 3)%Z.
Proof.
  split; [reflexivity|].
  apply (proj2 (frame_offsets_assume_a_table demo_converter) 0 1100%Z).
  reflexivity.
Defined.

(** A rate of 300 frames per second: the output file is created, and is
    empty. *)
Lemma unpackable_header_leaves_empty_file_witness :
  write_sprite too_fast "out.spr" (empty_disk 5000)
  = (mkDisk (<["out.spr" := []]> ∅) 5000 ∅, Raise StructError).
Proof.
  apply (unpackable_header_leaves_empty_file too_fast "out.spr" (empty_disk 5000)).
  - intros (_ & _ & _ & Hfps & _). vm_compute in Hfps. by destruct Hfps as [_ ?].
  - set_solver.
Defined.

Lemma header_read_back_witness :
  ∃ out, files (write_sprite demo_converter "out.spr" (empty_disk 5000)).1
         !! "out.spr" = Some out ∧
         uint_of_le (take 2 (drop 8 out)) = 4%Z ∧
         uint_of_le (take 1 (drop 12 out)) = 10%Z.
Proof.
  destruct (header_read_back demo_converter "out.spr" (empty_disk 5000)
              (write_sprite demo_converter "out.spr" (empty_disk 5000)).1)
    as (out & Hout & _ & _ & _ & Hw & _ & Hfps & _).
  - vm_compute. reflexivity.
  - exists out. split_and!; [exact Hout | exact Hw | exact Hfps].
Defined.

Lemma palette_needs_768_values_witness :
  ∃ s', generate_palette demo_loaded = Ok s'.
Proof.
  apply (proj1 (palette_needs_768_values demo_loaded)).
  vm_compute. apply le_n.
Defined.

Lemma main_touches_only_output_witness :
  files (main demo_world demo_argv demo_upload).1 !! "good.spr"
  = Some [x49; x4b; x4f; x44].
Proof.
  rewrite (proj1 (main_touches_only_output demo_world demo_argv demo_upload)
             "good.spr"); [reflexivity | discriminate].
Defined.

(** Room for 100 bytes: the file ends with the ninth palette entry, 36
    bytes past the header. *)
Lemma failed_write_leaves_a_prefix_witness :
  files (write_sprite demo_converter "out.spr" (empty_disk 100)).1
  = <["out.spr" := demo_header ++ take 36 (concat demo_rows)]> ∅.
Proof.
  destruct (failed_write_leaves_a_prefix demo_converter "out.spr" (empty_disk 100)
              (write_sprite demo_converter "out.spr" (empty_disk 100)).1
              (OSError OpWrite) demo_header demo_rows)
    as (_ & _ & Hfiles).
  - reflexivity.
  - vm_compute. reflexivity.
  - set_solver.
  - vm_compute. reflexivity.
  - rewrite Hfiles. reflexivity.
Defined.

Lemma written_container_validates_witness :
  validate_spr_file (write_sprite demo_converter "out.spr" (empty_disk 5000)).1
                    "out.spr" = true.
Proof.
  destruct (written_container_validates demo_converter "out.spr" (empty_disk 5000)
              (write_sprite demo_converter "out.spr" (empty_disk 5000)).1)
    as (out & Hout & _ & Hvalid).
  - vm_compute. reflexivity.
  - apply Hvalid.
    assert (Hlen : length <$> Some out = Some 1136).
    { rewrite <- Hout. vm_compute. reflexivity. }
    injection Hlen as ->. lia.
Defined.

Lemma load_from_folder_Ok_iff_witness :
  ∃ names first rest,
    listdir demo_world "anim" = Some names ∧
    frames demo_loaded = to_RGB <$> first :: rest.
Proof.
  destruct (proj1 (load_from_folder_Ok_iff demo_world (set_fps init 10) "anim"
                     demo_loaded))
    as (names & first & rest & Hnames & _ & _ & Hloaded).
  - reflexivity.
  - exists names, first, rest. split; [exact Hnames|].
    rewrite Hloaded. reflexivity.
Defined.

(** A width without a height: the frames keep the size of the GIF. *)
Lemma gif_resize_needs_both_sizes_witness :
  ∃ s', load demo_world (parse_args width_only_argv) = Ok s' ∧
        (width s', height s') = (4, 4)%Z.
Proof.
  destruct (gif_resize_needs_both_sizes demo_world width_only_argv
              (mkGif (4, 4)%Z (Some 50%Z)
                     [black false (4, 4)%Z []; black false (4, 4)%Z []]))
    as [_ Hkeep]; [reflexivity..|].
  destruct Hkeep as (s' & Hload & Hsize & _).
  - intros (_ & _ & Hheight & _). by apply Hheight.
  - exists s'. split; [exact Hload | exact Hsize].
Defined.

(** A width and a height of -1: the library resizes no frame, and the
    load ends with its error. *)
Lemma negative_size_is_not_loaded :
  load demo_world (parse_args negative_size_argv) = Raise LibraryError.
Proof. reflexivity. Qed.

(** A frame time of two seconds: a rate of 0. *)
Lemma gif_rate_bounds_witness :
  fps (fps_from_gif (@init Bitmap) (mkGif (4, 4)%Z (Some 2000%Z) [])) = 0%Z.
Proof.
  apply (gif_rate_bounds (@init Bitmap) (mkGif (4, 4)%Z (Some 2000%Z) []));
    [reflexivity | simpl; lia | simpl; lia].
Defined.

Lemma main_succeeds_witness :
  ∃ hdr pal : list byte,
    length hdr = 64 ∧ length pal = 1024 ∧
    (main demo_world demo_argv (empty_disk 5000)).2 = Ok tt.
Proof.
  destruct (main_succeeds demo_world demo_argv (empty_disk 5000) demo_loaded)
    as (hdr & pal & Hhdr & Hpal & Hmain).
  - reflexivity.
  - vm_compute. apply le_n.
  - vm_compute. reflexivity.
  - vm_compute. split; [discriminate | reflexivity].
  - vm_compute. split; [discriminate | reflexivity].
  - vm_compute. split; [discriminate | reflexivity].
  - set_solver.
  - apply Nat.leb_le. vm_compute. reflexivity.
  - exists hdr, pal. split_and!; [exact Hhdr | exact Hpal |].
    rewrite Hmain. reflexivity.
Defined.

Lemma upload_sends_only_valid_files_witness :
  (upload_main no_device demo_upload
     ["upload_animation.py"; "10.0.0.7"; "good.spr"]).1
  = [mkRequest "http://10.0.0.7/api/animations/upload" "good.spr"
               [x49; x4b; x4f; x44] 30].
Proof.
  apply (proj1 (upload_sends_only_valid_files no_device demo_upload
                  ["upload_animation.py"; "10.0.0.7"; "good.spr"])
           "upload_animation.py" "10.0.0.7" "good.spr");
    [reflexivity | reflexivity | reflexivity | vm_compute; discriminate].
Defined.

Lemma upload_exit_code_witness :
  (upload_main demo_device demo_upload ["upload_animation.py"; "10.0.0.7"; "good.spr"]).2
  = 0%Z.
Proof.
  apply (proj1 (upload_exit_code demo_device demo_upload
                  ["upload_animation.py"; "10.0.0.7"; "good.spr"])).
  eexists. split; reflexivity.
Defined.
